(** * brian2tools.mdexport.expander: the standard markdown expander

    A shallow embedding of [Std_mdexpander] (src/brian2tools/mdexport/expander.py)
    and the properties of its text assembly.

    The expander walks the "standard dictionary" of a Brian network (nested
    Python dicts and lists) and concatenates markdown text.  Python values are
    an inductive type, exceptions are the [Raise] branch of a result type, the
    two attributes the object keeps ([github_md], [md_text]) are a record that
    the methods receive as [self], and the helpers imported from
    [markdown_strings], [sympy], [numpy] and [brian2] are interfaces (type
    classes): the expander treats them as black boxes.

    Every method is a definition of the same name.  A [for] loop that appends
    to a string is [for_acc]; operands are evaluated, and exceptions raised,
    in the order of the source.  Texts are strings of one-byte characters. *)

From Stdlib Require Import String Ascii List ZArith Lia Bool DecimalString.
Import ListNotations.
Local Open Scope string_scope.
Local Open Scope Z_scope.

(** ** Exceptions and the result monad *)

Inductive exn : Type :=
| KeyError (key : string)
| TypeError
| ValueError
| IndexError
| AttributeError (name : string)
| Exception
| ExternalError (origin : string).

Inductive result (A : Type) : Type :=
| Ok (a : A)
| Raise (e : exn).

Arguments Ok {A} a.
Arguments Raise {A} e.

Definition bind {A B} (c : result A) (k : A -> result B) : result B :=
  match c with
  | Ok a => k a
  | Raise e => Raise e
  end.

Notation "x <- c ;; k" := (bind c (fun x => k))
  (at level 61, c at next level, right associativity).

(** A list comprehension whose body can raise: left to right, the first
    exception wins. *)
Fixpoint mapM {A B} (f : A -> result B) (xs : list A) : result (list B) :=
  match xs with
  | [] => Ok []
  | x :: xs' => y <- f x ;; ys <- mapM f xs' ;; Ok (y :: ys)
  end.

(** [for x in xs: acc += body(x)] *)
Fixpoint for_acc {A} (body : A -> result string) (xs : list A) (acc : string)
  : result string :=
  match xs with
  | [] => Ok acc
  | x :: xs' => s <- body x ;; for_acc body xs' (acc ++ s)
  end.

(** ** Strings *)

Module Str.

Definition chr (n : nat) : string := String (ascii_of_nat n) EmptyString.

Definition endl : string := chr 10.
Definition endll : string := endl ++ endl.
Definition tab : string := chr 9.
Definition dquote : string := chr 34.

Fixpoint spaces (n : nat) : string :=
  match n with
  | O => ""
  | S k => String " " (spaces k)
  end.

(** [sep.join(parts)] *)
Definition join (sep : string) (parts : list string) : string :=
  String.concat sep parts.

(** [''.join(parts)], the effect of repeated [+=] *)
Fixpoint cat (parts : list string) : string :=
  match parts with
  | [] => ""
  | p :: ps => p ++ cat ps
  end.

(** [pat in s] for strings *)
Fixpoint contains (pat s : string) : bool :=
  String.prefix pat s ||
  match s with
  | EmptyString => false
  | String _ s' => contains pat s'
  end.

(** [s[n:]] and [s[:-n]] for n >= 0 ([s[:-0]] is not used) *)
Definition from (n : nat) (s : string) : string :=
  String.substring n (String.length s - n) s.
Definition upto_last (n : nat) (s : string) : string :=
  String.substring 0 (String.length s - n) s.

(** [s.replace(old, new)] for a non-empty [old]: occurrences are found left
    to right and do not overlap; [skip] counts the characters of a match
    still to pass over. *)
Fixpoint replace_from (old new : string) (skip : nat) (s : string) : string :=
  match s with
  | EmptyString => ""
  | String c s' =>
      match skip with
      | S k => replace_from old new k s'
      | O => if String.prefix old s
             then new ++ replace_from old new (String.length old - 1) s'
             else String c (replace_from old new 0 s')
      end
  end.
Definition replace (old new s : string) : string := replace_from old new 0 s.

Definition push (c : ascii) (pieces : list string) : list string :=
  match pieces with
  | [] => [String c ""]
  | p :: ps => String c p :: ps
  end.

(** The pattern [';|\n'] *)
Definition is_line_separator (c : ascii) : bool :=
  (Ascii.eqb c ";" || Ascii.eqb c (ascii_of_nat 10))%bool.

(** [re.split(';|\n', s)] *)
Fixpoint split_lines (s : string) : list string :=
  match s with
  | EmptyString => [""]
  | String c s' =>
      if is_line_separator c
      then "" :: split_lines s'
      else push c (split_lines s')
  end.

(** [re.split('-=|\+=|=', s)]: at each position the alternatives are tried
    in the order written. *)
Fixpoint split_assign_from (skip : nat) (s : string) : list string :=
  match s with
  | EmptyString => [""]
  | String c s' =>
      match skip with
      | S k => split_assign_from k s'
      | O => if String.prefix "-=" s then "" :: split_assign_from 1 s'
             else if String.prefix "+=" s then "" :: split_assign_from 1 s'
             else if String.prefix "=" s then "" :: split_assign_from 0 s'
             else push c (split_assign_from 0 s')
      end
  end.
Definition split_assign (s : string) : list string := split_assign_from 0 s.

(** [str(n)] for an int *)
Definition of_Z (n : Z) : string := NilZero.string_of_int (Z.to_int n).

End Str.

(** ** Python values

    The values a standard dictionary holds.  Dictionaries keep their insertion
    order and have string keys.  A float is named by its [repr]; a scalar
    [Quantity] (a zero-dimensional ndarray subclass) by its text.

    The expander compares a str by identity ([is]) with a constant of its
    own in two places, so a str comes in two kinds.  [PStr s] is the interned
    str of text [s]: the object that a string constant with this text denotes
    (CPython interns the constants that look like a name, ['initializer'] and
    ['timedarray'] among them, so a literal of the exporter is this object
    too).  [PStrCopy s] is a str of the same text that is another object
    (built at run time: joined, sliced, read from a file).  The two differ
    under [is] only. *)

#[warnings="-register-all"]
Inductive pyval : Type :=
| PNone
| PBool (b : bool)
| PInt (n : Z)
| PFloat (shown : string)
| PStr (s : string)
| PList (xs : list pyval)
| PDict (items : list (string * pyval))
| PArray (xs : list pyval)
| PQuantity (shown : string)
| PStrCopy (s : string).

(** What the expander needs from [str()], [!=], [==], [in] and truth values
    of container, array and quantity objects; fixed by Python, numpy and
    brian2 (and their versions), not by the expander.  [eq_str_object v s] is
    the truth value of [v == s] for an array or a quantity [v]: a comparison
    that numpy makes element by element has no truth value for two or more
    elements, and raises.  [contains_object v k] is [k in v] for a list or an
    array. *)
Class Objects : Type := {
  str_object : pyval -> string;
  ne_one_object : pyval -> result bool;
  truth_object : pyval -> result bool;
  eq_str_object : pyval -> string -> result bool;
  contains_object : pyval -> string -> result bool
}.

Module Py.

Definition isinstance_str (v : pyval) : bool :=
  match v with PStr _ | PStrCopy _ => true | _ => false end.
Definition isinstance_bool (v : pyval) : bool :=
  match v with PBool _ => true | _ => false end.
Definition isinstance_Quantity (v : pyval) : bool :=
  match v with PQuantity _ => true | _ => false end.
Definition is_dict (v : pyval) : bool :=
  match v with PDict _ => true | _ => false end.

(** Objects that define [__iter__]: str, list, dict and every ndarray (a
    scalar Quantity included). *)
Definition has_iter (v : pyval) : bool :=
  match v with
  | PStr _ | PStrCopy _ | PList _ | PDict _ | PArray _ | PQuantity _ => true
  | PNone | PBool _ | PInt _ | PFloat _ => false
  end.

Definition has_size (v : pyval) : bool :=
  match v with PArray _ | PQuantity _ => true | _ => false end.

(** [hasattr(v, name)], for the attribute names the expander asks about *)
Definition hasattr (v : pyval) (name : string) : bool :=
  if String.eqb name "__iter__" then has_iter v
  else if String.eqb name "size" then has_size v
  else false.

Fixpoint chars (s : string) : list pyval :=
  match s with
  | EmptyString => []
  | String c s' => PStr (String c "") :: chars s'
  end.

(** The items [for x in v] visits; iterating a zero-dimensional array
    raises. *)
Definition iter (v : pyval) : result (list pyval) :=
  match v with
  | PStr s | PStrCopy s => Ok (chars s)
  | PList xs => Ok xs
  | PDict items => Ok (map (fun kv => PStr (fst kv)) items)
  | PArray xs => Ok xs
  | PQuantity _ => Raise TypeError
  | PNone | PBool _ | PInt _ | PFloat _ => Raise TypeError
  end.

Fixpoint assoc {A} (k : string) (items : list (string * A)) : option A :=
  match items with
  | [] => None
  | (k', v) :: rest => if String.eqb k k' then Some v else assoc k rest
  end.

(** [d[k]] for a string key: a missing key of a dictionary is a [KeyError],
    a str is no index of an array ([IndexError]), and the other values take
    no str between brackets or none at all ([TypeError]). *)
Definition getitem (d : pyval) (k : string) : result pyval :=
  match d with
  | PDict items =>
      match assoc k items with
      | Some v => Ok v
      | None => Raise (KeyError k)
      end
  | PArray _ | PQuantity _ => Raise IndexError
  | _ => Raise TypeError
  end.

(** The text of a str. *)
Definition text_of (v : pyval) : option string :=
  match v with
  | PStr s | PStrCopy s => Some s
  | _ => None
  end.

(** [v is 'literal']: identity with a string constant of the program. *)
Definition is_str (v : pyval) (literal : string) : bool :=
  match v with
  | PStr s => String.eqb s literal
  | _ => false
  end.

(** [d.items()] *)
Definition items (d : pyval) : result (list (string * pyval)) :=
  match d with
  | PDict kvs => Ok kvs
  | _ => Raise (AttributeError "items")
  end.

(** [v.size] *)
Definition size (v : pyval) : result Z :=
  match v with
  | PArray xs => Ok (Z.of_nat (length xs))
  | PQuantity _ => Ok 1
  | _ => Raise (AttributeError "size")
  end.

(** A value used as an operand of string [+], or as an item of [join] *)
Definition as_str (v : pyval) : result string :=
  match v with
  | PStr s | PStrCopy s => Ok s
  | _ => Raise TypeError
  end.

Section WithObjects.
Context {objects : Objects}.

(** [str(v)] *)
Definition str (v : pyval) : string :=
  match v with
  | PNone => "None"
  | PBool true => "True"
  | PBool false => "False"
  | PInt n => Str.of_Z n
  | PFloat shown => shown
  | PStr s | PStrCopy s => s
  | PList _ | PDict _ | PArray _ | PQuantity _ => str_object v
  end.

(** [bool(v)] *)
Definition truth (v : pyval) : result bool :=
  match v with
  | PNone => Ok false
  | PBool b => Ok b
  | PInt n => Ok (negb (n =? 0))
  | PFloat shown => Ok (negb (String.eqb shown "0.0" || String.eqb shown "-0.0"))
  | PStr s | PStrCopy s => Ok (negb (String.eqb s ""))
  | PList xs => Ok (match xs with [] => false | _ => true end)
  | PDict kvs => Ok (match kvs with [] => false | _ => true end)
  | PArray _ | PQuantity _ => truth_object v
  end.

(** the truth value of [v != 1] *)
Definition ne_one (v : pyval) : result bool :=
  match v with
  | PInt n => Ok (negb (n =? 1))
  | PBool b => Ok (negb b)
  | PFloat shown => Ok (negb (String.eqb shown "1.0"))
  | PNone | PStr _ | PStrCopy _ | PList _ | PDict _ => Ok true
  | PArray _ | PQuantity _ => ne_one_object v
  end.

(** The truth value of [v == 'text'], as [if] and [or] take it: the texts
    compared for a str, false for another plain value, and what numpy and
    brian2 make of it for an array or a quantity. *)
Definition eq_str (v : pyval) (s : string) : result bool :=
  match v with
  | PStr s' | PStrCopy s' => Ok (String.eqb s' s)
  | PArray _ | PQuantity _ => eq_str_object v s
  | PNone | PBool _ | PInt _ | PFloat _ | PList _ | PDict _ => Ok false
  end.

(** [k in d] for a string [k] *)
Definition contains (k : string) (d : pyval) : result bool :=
  match d with
  | PDict items => Ok (match assoc k items with Some _ => true | None => false end)
  | PStr s | PStrCopy s => Ok (Str.contains k s)
  | PList _ | PArray _ | PQuantity _ => contains_object d k
  | PNone | PBool _ | PInt _ | PFloat _ => Raise TypeError
  end.

End WithObjects.

End Py.

(** ** [check_plural] *)

(** dict where adding 's' at the end won't work *)
Definition singular_plural_dict : list (string * string) :=
  [("index", "indices"); ("property", "properties")].

(** [if singular_word:] for an optional string *)
Definition given (singular_word : option string) : bool :=
  match singular_word with
  | None => false
  | Some w => negb (String.eqb w "")
  end.

(** The body of [for _ in iterable] with the running [count]. *)
Fixpoint check_plural_loop (items : list pyval) (count : Z)
    (singular_word : option string) : result string :=
  match items with
  | [] => Ok ""
  | _ :: rest =>
      let count := count + 1 in
      if count >? 1 then
        if given singular_word then
          match singular_word with
          | Some w =>
              match Py.assoc w singular_plural_dict with
              | Some plural => Ok plural
              | None => Raise Exception
              end
          | None => Ok "s"
          end
        else Ok "s"
      else check_plural_loop rest count singular_word
  end.

Definition check_plural (iterable : pyval) (singular_word : option string)
    (allow_constants : bool) : result string :=
  if Py.hasattr iterable "__iter__" then
    items <- Py.iter iterable ;;
    check_plural_loop items 0 singular_word
  else if negb allow_constants then Raise IndexError
  else Ok "".

(** ** The imported helpers

    [markdown_strings] gives the three templates; [sympy] and
    [brian2.equations] give parsing, derivatives and the LaTeX printer.  The
    printer receives either the text of a Quantity or a parsed expression. *)

Class MarkdownStrings : Type := {
  header : string -> Z -> string;
  bold : pyval -> string;
  horizontal_rule : string
}.

Class Sympy : Type := {
  expr : Type;
  str_to_sympy : string -> result expr;
  Derivative : string + expr -> result expr;
  latex : string + expr -> string
}.

(** ** The expander object: its two attributes, unset until assigned *)

Record Std_mdexpander : Type := {
  github_md : option bool;
  md_text : option string
}.

Definition get_github_md (self : Std_mdexpander) : result bool :=
  match github_md self with
  | Some b => Ok b
  | None => Raise (AttributeError "github_md")
  end.

Definition set_github_md (self : Std_mdexpander) (b : bool) : Std_mdexpander :=
  {| github_md := Some b; md_text := md_text self |}.

Definition set_md_text (self : Std_mdexpander) (s : string) : Std_mdexpander :=
  {| github_md := github_md self; md_text := Some s |}.

(** [x is 'literal']: identity with a string constant of the expander.  A
    str of the same text that is another object is not it. *)
Definition is_literal (v : pyval) (literal : string) : bool := Py.is_str v literal.

Definition default_equals : string := "&#8592;".

Section Expander.
Context {md : MarkdownStrings} {sympy : Sympy} {objects : Objects}.

Definition render_expression (self : Std_mdexpander) (expression : pyval)
    (differential : bool) : result string :=
  expression <-
    (if Py.isinstance_Quantity expression then Ok (inl (Py.str expression))
     else
       let text := match expression with
                   | PStr s => s
                   | _ => Py.str expression
                   end in
       e <- str_to_sympy text ;; Ok (inr e)) ;;
  expression <-
    (if differential then d <- Derivative expression ;; Ok (inr d)
     else Ok expression) ;;
  let rend_exp := latex expression in
  let rend_exp := Str.replace "_placeholder_{arg}" "-" rend_exp in
  let rend_exp := Str.replace "\operatorname" "" rend_exp in
  g <- get_github_md self ;;
  if g then
    let rend_exp := Str.upto_last 2 (Str.from 2 rend_exp) in
    Ok ("<img src=" ++ Str.dquote ++
        "https://render.githubusercontent.com/render/math?math=" ++
        rend_exp ++ Str.dquote ++ ">")
  else Ok (Str.upto_last 1 (Str.from 1 rend_exp)).

(** The body of the loop of [prepare_math_statements]: the text one
    statement adds to [rend_str]. *)
Definition prepare_statement (self : Std_mdexpander) (differential separate : bool)
    (equals : string) (statement : string) : result string :=
  r <-
    (if separate then
       if (Str.contains "+=" statement || Str.contains "=" statement ||
           Str.contains "-=" statement)%bool
       then
         match Str.split_assign statement with
         | [lhs; rhs] =>
             if Str.contains "+=" statement then
               l <- render_expression self (PStr lhs) false ;;
               r <- render_expression self (PStr rhs) false ;;
               Ok (l ++ "+=" ++ r)
             else if Str.contains "-=" statement then
               l <- render_expression self (PStr lhs) false ;;
               r <- render_expression self (PStr rhs) false ;;
               Ok (l ++ "-=" ++ r)
             else
               l <- render_expression self (PStr lhs) false ;;
               r <- render_expression self (PStr rhs) false ;;
               Ok (l ++ equals ++ r)
         | _ => Raise ValueError
         end
       else Ok ""
     else render_expression self (PStr statement) differential) ;;
  Ok (r ++ ", ").

Definition prepare_math_statements (self : Std_mdexpander) (statements : pyval)
    (differential separate : bool) (equals : string) : result string :=
  statements <- Py.as_str statements ;;
  let list_eqns := Str.split_lines statements in
  rend_str <- for_acc (prepare_statement self differential separate equals)
                      list_eqns "" ;;
  Ok (Str.upto_last 2 rend_str).

Definition expand_identifier (self : Std_mdexpander) (ident_key : string)
    (ident_value : pyval) : result string :=
  ident_str <-
    (if negb (Py.is_dict ident_value) then
       k <- render_expression self (PStr ident_key) false ;;
       v <- render_expression self ident_value false ;;
       Ok (k ++ ": " ++ v)
     else
       k <- render_expression self (PStr ident_key) false ;;
       ty <- Py.getitem ident_value "type" ;;
       ty_s <- Py.as_str ty ;;
       let ident_str := k ++ " of type " ++ ty_s in
       if is_literal ty "timedarray" then
         ndim <- Py.getitem ident_value "ndim" ;;
         ndim_r <- render_expression self ndim false ;;
         dt <- Py.getitem ident_value "dt" ;;
         dt_r <- render_expression self dt false ;;
         Ok (ident_str ++ " with dimension " ++ ndim_r ++ " and dt as " ++ dt_r)
       else Ok ident_str) ;;
  Ok (ident_str ++ ", ").

Definition expand_identifiers (self : Std_mdexpander) (identifiers : pyval)
    : result string :=
  kvs <- Py.items identifiers ;;
  idents_str <- for_acc (fun kv => expand_identifier self (fst kv) (snd kv)) kvs "" ;;
  Ok (Str.tab ++ Str.upto_last 2 idents_str ++ Str.endll).

Definition expand_event (self : Std_mdexpander) (event_name : string)
    (event_details : pyval) : result string :=
  let event_str := Str.tab ++ "Event " ++ bold (PStr event_name) ++ ", " in
  threshold <- Py.getitem event_details "threshold" ;;
  code <- Py.getitem threshold "code" ;;
  after <- render_expression self code false ;;
  let event_str := event_str ++ "after " ++ after in
  has_reset <- Py.contains "reset" event_details ;;
  event_str <-
    (if has_reset then
       reset <- Py.getitem event_details "reset" ;;
       code <- Py.getitem reset "code" ;;
       stmts <- prepare_math_statements self code false true default_equals ;;
       Ok (event_str ++ ", " ++ stmts)
     else Ok event_str) ;;
  has_refractory <- Py.contains "refractory" event_details ;;
  event_str <-
    (if has_refractory then
       refractory <- Py.getitem event_details "refractory" ;;
       r <- render_expression self refractory false ;;
       Ok (event_str ++ ", with refractory " ++ r)
     else Ok event_str) ;;
  Ok (event_str ++ Str.endll).

Definition expand_events (self : Std_mdexpander) (events : pyval) : result string :=
  kvs <- Py.items events ;;
  for_acc (fun kv => expand_event self (fst kv) (snd kv)) kvs "".

Definition expand_equation (self : Std_mdexpander) (var : string)
    (equation : pyval) : result string :=
  ty <- Py.getitem equation "type" ;;
  differential <- Py.eq_str ty "differential equation" ;;
  rend_eqn <-
    (if differential then
       render_expression self (PStr var) true
     else
       ty <- Py.getitem equation "type" ;;
       subexpression <- Py.eq_str ty "subexpression" ;;
       if subexpression then
         render_expression self (PStr var) false
       else
         r <- render_expression self (PStr var) false ;; Ok ("Parameter " ++ r)) ;;
  has_expr <- Py.contains "expr" equation ;;
  rend_eqn <-
    (if has_expr then
       e <- Py.getitem equation "expr" ;;
       r <- render_expression self e false ;;
       Ok (rend_eqn ++ "=" ++ r)
     else Ok rend_eqn) ;;
  v <- render_expression self (PStr var) false ;;
  unit <- Py.getitem equation "unit" ;;
  let rend_eqn := rend_eqn ++ ", where unit of " ++ v ++ " is " ++ Py.str unit in
  has_flags <- Py.contains "flags" equation ;;
  rend_eqn <-
    (if has_flags then
       flags <- Py.getitem equation "flags" ;;
       fs <- Py.iter flags ;;
       plural <- check_plural flags None true ;;
       Ok (rend_eqn ++ " and " ++ Str.join ", " (map Py.str fs) ++
           " as flag" ++ plural ++ " associated")
     else Ok rend_eqn) ;;
  Ok (Str.tab ++ rend_eqn ++ Str.endll).

Definition expand_equations (self : Std_mdexpander) (equations : pyval)
    : result string :=
  kvs <- Py.items equations ;;
  for_acc (fun kv => expand_equation self (fst kv) (snd kv)) kvs "".

Definition expand_runregularly (self : Std_mdexpander) (run_reg : pyval)
    : result string :=
  dt <- Py.getitem run_reg "dt" ;;
  dt_r <- render_expression self dt false ;;
  code <- Py.getitem run_reg "code" ;;
  stmts <- prepare_math_statements self code false true default_equals ;;
  Ok (Str.tab ++ "For every " ++ dt_r ++ " code: " ++ stmts ++
      " will be executed" ++ Str.endll).

Definition expand_NeuronGroup (self : Std_mdexpander) (neurongrp : pyval)
    : result string :=
  name <- Py.getitem neurongrp "name" ;;
  N <- Py.getitem neurongrp "N" ;;
  let md_str := "Name " ++ bold name ++ ", with " ++ Str.spaces 16 ++
                "population size " ++ bold N ++ "." ++ Str.endll in
  let md_str := md_str ++ Str.tab ++ bold (PStr "Dynamics:") ++ Str.endll in
  equations <- Py.getitem neurongrp "equations" ;;
  eqs <- expand_equations self equations ;;
  let md_str := md_str ++ eqs in
  user_method <- Py.getitem neurongrp "user_method" ;;
  has_method <- Py.truth user_method ;;
  md_str <-
    (if has_method then
       m <- Py.as_str user_method ;;
       Ok (md_str ++ Str.tab ++ m ++ " method is used for integration" ++ Str.endll)
     else Ok md_str) ;;
  has_events <- Py.contains "events" neurongrp ;;
  md_str <-
    (if has_events then
       events <- Py.getitem neurongrp "events" ;;
       evs <- expand_events self events ;;
       Ok (md_str ++ Str.tab ++ bold (PStr "Events:") ++ Str.endll ++ evs)
     else Ok md_str) ;;
  has_identifiers <- Py.contains "identifiers" neurongrp ;;
  md_str <-
    (if has_identifiers then
       identifiers <- Py.getitem neurongrp "identifiers" ;;
       ids <- expand_identifiers self identifiers ;;
       Ok (md_str ++ Str.tab ++ bold (PStr "Constants:") ++ Str.endll ++ ids)
     else Ok md_str) ;;
  has_run_regularly <- Py.contains "run_regularly" neurongrp ;;
  md_str <-
    (if has_run_regularly then
       run_regularly <- Py.getitem neurongrp "run_regularly" ;;
       plural <- check_plural run_regularly None true ;;
       let md_str := md_str ++ Str.tab ++ bold (PStr "Run regularly") ++ plural ++
                     ": " ++ Str.endll in
       run_regs <- Py.iter run_regularly ;;
       for_acc (expand_runregularly self) run_regs md_str
     else Ok md_str) ;;
  Ok md_str.

(** [', '.join(str(ind) for ind in v)] with separator [sep] *)
Definition join_strs (sep : string) (v : pyval) : result string :=
  items <- Py.iter v ;;
  Ok (Str.join sep (map Py.str items)).

(** [isinstance(index, str) and (index != 'True' and index != 'False')]:
    the comparisons are made for a str only. *)
Definition is_condition (index : pyval) : bool :=
  match Py.text_of index with
  | Some s => (negb (String.eqb s "True") && negb (String.eqb s "False"))%bool
  | None => false
  end.

(** [isinstance(index, bool) or (index == 'True' or index == 'False')]: the
    comparisons are made from left to right and as far as needed. *)
Definition is_boolean (index : pyval) : result bool :=
  if Py.isinstance_bool index then Ok true
  else
    true_text <- Py.eq_str index "True" ;;
    if true_text then Ok true else Py.eq_str index "False".

Definition expand_initializer (self : Std_mdexpander) (initializer : pyval)
    : result string :=
  variable <- Py.getitem initializer "variable" ;;
  variable_r <- render_expression self variable false ;;
  source <- Py.getitem initializer "source" ;;
  source <- Py.as_str source ;;
  value <- Py.getitem initializer "value" ;;
  value_r <- render_expression self value false ;;
  let init_str := "Variable " ++ variable_r ++ " of " ++ source ++
                  " initialized with " ++ value_r in
  index <- Py.getitem initializer "index" ;;
  (* not a good checking *)
  init_str <-
    (if is_condition index
     then
       condition <- Py.as_str index ;;
       Ok (init_str ++ " on condition " ++ condition)
     else
       boolean <- is_boolean index ;;
       if boolean
       then
         t <- Py.truth index ;;
         all <- (if t then Ok true else Py.eq_str index "True") ;;
         if all
         then Ok (init_str ++ " to all members")
         else Ok (init_str ++ " to no member")
       else
         plural <- check_plural index None true ;;
         let init_str := init_str ++ " to member" ++ plural ++ " " in
         if negb (Py.hasattr index "__iter___") then
           Ok (init_str ++ Py.str index)
         else
           joined <- join_strs "," index ;;
           Ok (init_str ++ joined)) ;;
  has_identifiers <- Py.contains "identifiers" initializer ;;
  init_str <-
    (if has_identifiers then
       identifiers <- Py.getitem initializer "identifiers" ;;
       plural <- check_plural identifiers None true ;;
       ids <- expand_identifiers self identifiers ;;
       Ok (init_str ++ ". Identifier" ++ plural ++ " associated: " ++ ids)
     else Ok init_str) ;;
  Ok (init_str ++ Str.endll).

(** The text for the indices of one side of a connection, when they are not
    generator syntax: the joined items of an iterable, [str] of a constant. *)
Definition indices_text (v : pyval) : result string :=
  if Py.hasattr v "__iter__" then join_strs ", " v
  else Ok (Py.str v).

Definition expand_connector (self : Std_mdexpander) (connector : pyval)
    : result string :=
  source <- Py.getitem connector "source" ;;
  source <- Py.as_str source ;;
  target <- Py.getitem connector "target" ;;
  target <- Py.as_str target ;;
  let con_str := "Connection from " ++ source ++ " to " ++ target in
  has_i <- Py.contains "i" connector ;;
  con_str <-
    (if has_i then
       i <- Py.getitem connector "i" ;;
       plural <- check_plural i (Some "index") true ;;
       let con_str := con_str ++ ". From source group " ++ plural ++ ": " in
       con_str <-
         (if negb (Py.isinstance_str i) then
            t <- indices_text i ;; Ok (con_str ++ t)
          else
            g <- Py.as_str i ;; Ok (con_str ++ " with generator syntax " ++ g)) ;;
       has_j <- Py.contains "j" connector ;;
       if has_j then
         j <- Py.getitem connector "j" ;;
         plural <- check_plural j (Some "index") true ;;
         let con_str := con_str ++ " to target group " ++ plural ++ ": " in
         if negb (Py.isinstance_str j) then
           t <- indices_text j ;; Ok (con_str ++ t)
         else
           g <- Py.as_str j ;; Ok (con_str ++ " with generator syntax " ++ g)
       else Ok (con_str ++ " to all target group members")
     else
       has_j <- Py.contains "j" connector ;;
       if has_j then
         let con_str := con_str ++ ". Connection for all members in source group" in
         j <- Py.getitem connector "j" ;;
         if negb (Py.isinstance_str j) then
           plural <- check_plural j (Some "index") true ;;
           t <- indices_text j ;;
           Ok (con_str ++ " to target group " ++ plural ++ ": " ++ t)
         else
           g <- Py.as_str j ;;
           Ok (con_str ++ " to target group with generator syntax " ++ g)
       else
         has_condition <- Py.contains "condition" connector ;;
         if has_condition then
           condition <- Py.getitem connector "condition" ;;
           c <- render_expression self condition false ;;
           Ok (con_str ++ " with condition " ++ c)
         else Ok con_str) ;;
  probability <- Py.getitem connector "probability" ;;
  with_probability <- Py.ne_one probability ;;
  con_str <-
    (if with_probability then
       p <- render_expression self probability false ;;
       Ok (con_str ++ ", with probability " ++ p)
     else Ok con_str) ;;
  n_connections <- Py.getitem connector "n_connections" ;;
  with_n <- Py.ne_one n_connections ;;
  con_str <-
    (if with_n then
       n <- render_expression self n_connections false ;;
       Ok (con_str ++ ", with number of connections " ++ n)
     else Ok con_str) ;;
  has_identifiers <- Py.contains "identifiers" connector ;;
  con_str <-
    (if has_identifiers then
       identifiers <- Py.getitem connector "identifiers" ;;
       ids <- expand_identifiers self identifiers ;;
       Ok (con_str ++ ". Constants associated: " ++ ids)
     else Ok con_str) ;;
  Ok (con_str ++ Str.endll).

(** The [run_regularly] block shared by [expand_PoissonGroup] and
    [expand_SpikeGeneratorGroup]. *)
Definition run_regularly_block (self : Std_mdexpander) (group : pyval)
    (md_str : string) : result string :=
  has_run_regularly <- Py.contains "run_regularly" group ;;
  if has_run_regularly then
    let md_str := md_str ++ Str.tab ++ bold (PStr "Run regularly: ") ++ Str.endll in
    run_regularly <- Py.getitem group "run_regularly" ;;
    run_regs <- Py.iter run_regularly ;;
    for_acc (expand_runregularly self) run_regs md_str
  else Ok md_str.

(** The [identifiers] block shared by the group and synapse expanders. *)
Definition constants_block (self : Std_mdexpander) (obj : pyval)
    (md_str : string) : result string :=
  has_identifiers <- Py.contains "identifiers" obj ;;
  if has_identifiers then
    identifiers <- Py.getitem obj "identifiers" ;;
    ids <- expand_identifiers self identifiers ;;
    Ok (md_str ++ Str.tab ++ bold (PStr "Constants:") ++ Str.endll ++ ids)
  else Ok md_str.

Definition expand_PoissonGroup (self : Std_mdexpander) (poisngrp : pyval)
    : result string :=
  name <- Py.getitem poisngrp "name" ;;
  N <- Py.getitem poisngrp "N" ;;
  rates <- Py.getitem poisngrp "rates" ;;
  rates_r <- render_expression self rates false ;;
  let md_str := Str.tab ++ "Name " ++ bold name ++ ", with " ++ Str.spaces 16 ++
                "population size " ++ bold N ++ " and rate as " ++ rates_r ++
                "." ++ Str.endll in
  md_str <- constants_block self poisngrp md_str ;;
  run_regularly_block self poisngrp md_str.

Definition expand_SpikeGeneratorGroup (self : Std_mdexpander) (spkgen : pyval)
    : result string :=
  name <- Py.getitem spkgen "name" ;;
  N <- Py.getitem spkgen "N" ;;
  indices <- Py.getitem spkgen "indices" ;;
  plural <- check_plural indices None true ;;
  indices <- Py.getitem spkgen "indices" ;;
  indices_s <- join_strs ", " indices ;;
  times <- Py.getitem spkgen "times" ;;
  times_s <- join_strs ", " times ;;
  period <- Py.getitem spkgen "period" ;;
  let md_str := Str.tab ++ "Name " ++ bold name ++ ", with population size " ++
                bold N ++ ", has neuron" ++ plural ++ ": " ++ indices_s ++
                " that spike at times " ++ times_s ++ ", with period " ++
                Py.str period ++ "." ++ Str.endll in
  run_regularly_block self spkgen md_str.

(** The text both monitor expanders start with: the variables and the
    source. *)
Definition monitored_variables (self : Std_mdexpander) (mon : pyval) : result string :=
  variables <- Py.getitem mon "variables" ;;
  plural <- check_plural variables None true ;;
  vars <- Py.iter variables ;;
  rendered <- mapM (fun var => render_expression self var false) vars ;;
  source <- Py.getitem mon "source" ;;
  source <- Py.as_str source ;;
  Ok (Str.tab ++ "Monitors variable" ++ plural ++ ": " ++
      Str.join "," rendered ++ " of " ++ source).

Definition expand_StateMonitor (self : Std_mdexpander) (statemon : pyval)
    : result string :=
  md_str <- monitored_variables self statemon ;;
  record <- Py.getitem statemon "record" ;;
  if Py.isinstance_bool record then
    t <- Py.truth record ;;
    if t then Ok (md_str ++ " for all members") else Ok md_str
  else
    (* another bad hack (before with initializers) *)
    size <- Py.size record ;;
    if size =? 0 then Ok (md_str ++ " for no member")
    else
      plural <- check_plural record None true ;;
      members <- join_strs "," record ;;
      Ok (md_str ++ ", for member" ++ plural ++ ": " ++ members ++ "." ++ Str.endll).

Definition expand_EventMonitor (self : Std_mdexpander) (eventmon : pyval)
    : result string :=
  md_str <- monitored_variables self eventmon ;;
  record <- Py.getitem eventmon "record" ;;
  md_str <-
    (if Py.isinstance_bool record then
       t <- Py.truth record ;;
       if t then Ok (md_str ++ " for all members") else Ok md_str
     else
       size <- Py.size record ;;
       if size =? 0 then Ok (md_str ++ " for no member")
       else
         plural <- check_plural record None true ;;
         members <- join_strs "," record ;;
         Ok (md_str ++ ", for member" ++ plural ++ ": " ++ members)) ;;
  event <- Py.getitem eventmon "event" ;;
  Ok (md_str ++ " when event " ++ bold event ++ " is triggered." ++ Str.endll).

Definition expand_SpikeMonitor (self : Std_mdexpander) (spikemon : pyval)
    : result string :=
  expand_EventMonitor self spikemon.

Definition expand_PopulationRateMonitor (self : Std_mdexpander) (popratemon : pyval)
    : result string :=
  source <- Py.getitem popratemon "source" ;;
  source <- Py.as_str source ;;
  Ok (Str.tab ++ "Monitors the population of " ++ source ++ "." ++ Str.endll).

Definition expand_pathway (self : Std_mdexpander) (pathway : pyval) : result string :=
  prepost <- Py.getitem pathway "prepost" ;;
  event <- Py.getitem pathway "event" ;;
  event <- Py.as_str event ;;
  code <- Py.getitem pathway "code" ;;
  stmts <- prepare_math_statements self code false true default_equals ;;
  let md_str := Str.tab ++ "On " ++ bold prepost ++ " of event " ++ event ++
                " statements: " ++ stmts ++ " executed" in
  (* check delay is associated *)
  has_delay <- Py.contains "delay" pathway ;;
  md_str <-
    (if has_delay then
       delay <- Py.getitem pathway "delay" ;;
       d <- render_expression self delay false ;;
       Ok (md_str ++ ", with synaptic delay of " ++ d)
     else Ok md_str) ;;
  Ok (md_str ++ Str.endll).

Definition expand_pathways (self : Std_mdexpander) (pathways : pyval) : result string :=
  items <- Py.iter pathways ;;
  for_acc (expand_pathway self) items "".

Definition expand_summed_variable (self : Std_mdexpander) (sum_variable : pyval)
    : result string :=
  target <- Py.getitem sum_variable "target" ;;
  target <- Py.as_str target ;;
  code <- Py.getitem sum_variable "code" ;;
  c <- render_expression self code false ;;
  Ok (Str.tab ++ "Updates target group " ++ target ++ " with statement: " ++ c ++
      Str.endll).

Definition expand_summed_variables (self : Std_mdexpander) (sum_variables : pyval)
    : result string :=
  items <- Py.iter sum_variables ;;
  for_acc (expand_summed_variable self) items "".

Definition expand_Synapses (self : Std_mdexpander) (synapse : pyval) : result string :=
  source <- Py.getitem synapse "source" ;;
  source <- Py.as_str source ;;
  target <- Py.getitem synapse "target" ;;
  target <- Py.as_str target ;;
  let md_str := Str.tab ++ "From " ++ source ++ " to " ++ target ++ Str.endll in
  (* expand model equations *)
  has_equations <- Py.contains "equations" synapse ;;
  md_str <-
    (if has_equations then
       let md_str := md_str ++ Str.tab ++ bold (PStr "Dynamics:") ++ Str.endll in
       equations <- Py.getitem synapse "equations" ;;
       eqs <- expand_equations self equations ;;
       let md_str := md_str ++ Str.tab ++ eqs in
       has_method <- Py.contains "user_method" synapse ;;
       if has_method then
         user_method <- Py.getitem synapse "user_method" ;;
         m <- Py.as_str user_method ;;
         Ok (md_str ++ Str.tab ++ m ++ " method is used for integration" ++ Str.endll)
       else Ok md_str
     else Ok md_str) ;;
  has_pathways <- Py.contains "pathways" synapse ;;
  md_str <-
    (if has_pathways then
       pathways <- Py.getitem synapse "pathways" ;;
       ps <- expand_pathways self pathways ;;
       Ok (md_str ++ Str.tab ++ bold (PStr "Pathways:") ++ Str.endll ++ ps)
     else Ok md_str) ;;
  has_summed <- Py.contains "summed_variables" synapse ;;
  md_str <-
    (if has_summed then
       summed <- Py.getitem synapse "summed_variables" ;;
       ss <- expand_summed_variables self summed ;;
       Ok (md_str ++ Str.tab ++ bold (PStr "Summed variables: ") ++ Str.endll ++ ss)
     else Ok md_str) ;;
  constants_block self synapse md_str.

Definition expand_PoissonInput (self : Std_mdexpander) (poinp : pyval) : result string :=
  N <- Py.getitem poinp "N" ;;
  target_var <- Py.getitem poinp "target_var" ;;
  target_var_r <- render_expression self target_var false ;;
  rate <- Py.getitem poinp "rate" ;;
  rate_r <- render_expression self rate false ;;
  weight <- Py.getitem poinp "weight" ;;
  weight_r <- render_expression self weight false ;;
  let md_str := Str.tab ++ "PoissonInput with size " ++ bold N ++
                " gives input to variable " ++ target_var_r ++ " with rate " ++
                rate_r ++ " and weight of " ++ weight_r ++ Str.endll in
  constants_block self poinp md_str.

(** One entry of [func_map]: the expand function ['f'], the Brian heading
    ['hb'] and the plain heading ['h']. *)
Record handler : Type := {
  entry_f : Std_mdexpander -> pyval -> result string;
  entry_hb : string;
  entry_h : string
}.

Definition func_map : list (string * handler) :=
  [ ("neurongroup",
     {| entry_f := expand_NeuronGroup; entry_hb := "NeuronGroup";
        entry_h := "Neuron group" |});
    ("poissongroup",
     {| entry_f := expand_PoissonGroup; entry_hb := "PoissonGroup";
        entry_h := "Poisson spike source" |});
    ("spikegeneratorgroup",
     {| entry_f := expand_SpikeGeneratorGroup; entry_hb := "SpikeGeneratorGroup";
        entry_h := "Spike generating source" |});
    ("statemonitor",
     {| entry_f := expand_StateMonitor; entry_hb := "StateMonitor";
        entry_h := "Activity recorder" |});
    ("spikemonitor",
     {| entry_f := expand_SpikeMonitor; entry_hb := "SpikeMonitor";
        entry_h := "Spiking activity recorder" |});
    ("eventmonitor",
     {| entry_f := expand_EventMonitor; entry_hb := "EventMonitor";
        entry_h := "Event activity recorder" |});
    ("populationratemonitor",
     {| entry_f := expand_PopulationRateMonitor; entry_hb := "PopulationRateMonitor";
        entry_h := "Population rate recorder" |});
    ("synapses",
     {| entry_f := expand_Synapses; entry_hb := "Synapse"; entry_h := "Synapse" |});
    ("poissoninput",
     {| entry_f := expand_PoissonInput; entry_hb := "PoissonInput";
        entry_h := "Poisson input" |}) ].

(** ['- ' + expand(obj)], the text one list member adds *)
Definition bullet (expand : Std_mdexpander -> pyval -> result string)
    (self : Std_mdexpander) (obj : pyval) : result string :=
  r <- expand self obj ;; Ok ("- " ++ r).

(** One pass of the loop over [run_dict['components'].items()]: the text it
    adds to [run_string]. *)
Definition expand_component (self : Std_mdexpander) (brian_verbose : bool)
    (item : string * pyval) : result string :=
  let obj_key := fst item in
  let obj_list := snd item in
  s <-
    match Py.assoc obj_key func_map with
    | Some entry =>
        let obj_h := if brian_verbose then entry_hb entry else entry_h entry in
        plural <- check_plural obj_list None true ;;
        let s := bold (PStr (obj_h ++ plural ++ " defined:")) ++ Str.endl in
        members <- Py.iter obj_list ;;
        for_acc (bullet (entry_f entry) self) members s
    | None => Ok ""
    end ;;
  Ok (s ++ Str.endl).

(** The loop that sorts [run_dict['initializers_connectors']] into the two
    lists [initializer] and [connector]. *)
Fixpoint sort_initializers_connectors (items initializer connector : list pyval)
  : result (list pyval * list pyval) :=
  match items with
  | [] => Ok (initializer, connector)
  | init_cont :: rest =>
      ty <- Py.getitem init_cont "type" ;;
      if is_literal ty "initializer"
      then sort_initializers_connectors rest (initializer ++ [init_cont]) connector
      else sort_initializers_connectors rest initializer (connector ++ [init_cont])
  end.

Definition initializer_section (self : Std_mdexpander) (brian_verbose : bool)
    (initializer : list pyval) (run_string : string) : result string :=
  match initializer with
  | [] => Ok run_string
  | _ :: _ =>
      run_string <-
        (if brian_verbose then
           plural <- check_plural (PList initializer) None true ;;
           Ok (run_string ++ bold (PStr ("Initializer" ++ plural ++ " defined:")) ++
               Str.endl)
         else
           Ok (run_string ++
               bold (PStr ("Initializing values at " ++ Str.spaces 40 ++ "starting:")) ++
               Str.endl)) ;;
      for_acc (bullet expand_initializer self) initializer run_string
  end.

Definition connector_section (self : Std_mdexpander) (connector : list pyval)
    (run_string : string) : result string :=
  match connector with
  | [] => Ok run_string
  | _ :: _ =>
      let run_string := run_string ++ Str.endl in
      plural <- check_plural (PList connector) None true ;;
      let run_string := run_string ++
        bold (PStr ("Synaptic Connection" ++ plural ++ " defined:")) ++ Str.endl in
      for_acc (bullet expand_connector self) connector run_string
  end.

(** The start of the loop body over the runs: the run header, the duration
    and the components; [n] is [len(net_dict)]. *)
Definition run_components (self : Std_mdexpander) (brian_verbose : bool) (n : Z)
    (run_indx : nat) (run_dict : pyval) : result string :=
  let run_string :=
    if n >? 1
    then header ("Run " ++ Str.of_Z (Z.of_nat run_indx + 1) ++ " details") 3 ++ Str.endl
    else Str.endl in
  duration <- Py.getitem run_dict "duration" ;;
  let run_string := run_string ++ "Duration of simulation is " ++
                    bold (PStr (Py.str duration)) ++ Str.endll in
  components <- Py.getitem run_dict "components" ;;
  items <- Py.items components ;;
  for_acc (expand_component self brian_verbose) items run_string.

(** check inactive objects *)
Definition inactive_section (run_dict : pyval) (run_string : string) : result string :=
  has_inactive <- Py.contains "inactive" run_dict ;;
  if has_inactive then
    let run_string := run_string ++ Str.endl in
    inactive <- Py.getitem run_dict "inactive" ;;
    plural <- check_plural inactive None true ;;
    let run_string := run_string ++
      bold (PStr ("Inactive member" ++ plural ++ ":")) ++ Str.endl in
    inactive <- Py.getitem run_dict "inactive" ;;
    items <- Py.iter inactive ;;
    names <- mapM Py.as_str items ;;
    Ok (run_string ++ Str.join ", " names)
  else Ok run_string.

(** The body of the loop over the runs of [create_md_string]: the
    [run_string] of run [run_indx], which the loop appends to
    [overall_string]; [n] is [len(net_dict)]. *)
Definition run_string (self : Std_mdexpander) (brian_verbose : bool) (n : Z)
    (run_indx : nat) (run_dict : pyval) : result string :=
  run_string <- run_components self brian_verbose n run_indx run_dict ;;
  (* differentiate connectors and initializers from `initializers_connectors` *)
  has_init_cont <- Py.contains "initializers_connectors" run_dict ;;
  sorted <-
    (if has_init_cont then
       init_conts <- Py.getitem run_dict "initializers_connectors" ;;
       items <- Py.iter init_conts ;;
       sort_initializers_connectors items [] []
     else Ok ([], [])) ;;
  run_string <- initializer_section self brian_verbose (fst sorted) run_string ;;
  run_string <- connector_section self (snd sorted) run_string ;;
  inactive_section run_dict run_string.

(** [net_dict[run_indx]] *)
Definition getrun (net_dict : list pyval) (run_indx : nat) : result pyval :=
  match nth_error net_dict run_indx with
  | Some run_dict => Ok run_dict
  | None => Raise IndexError
  end.

(** The text before the runs. *)
Definition network_header (net_dict : list pyval) : result string :=
  let len := Z.of_nat (length net_dict) in
  let overall_string := header "Network details" 1 ++ Str.endl in
  let n_runs := if len >? 1 then "" else "s" in
  plural <- check_plural (PList net_dict) None true ;;
  Ok (overall_string ++ "The Network consist" ++ n_runs ++
      (" of " ++ bold (PInt len) ++ " " ++ Str.spaces 27 ++ "simulation run") ++
      plural ++ Str.endl ++ horizontal_rule ++ Str.endl).

(** [create_md_string] returns the text, or raises, and leaves the object
    with [github_md] assigned and, on return, [md_text] too. *)
Definition create_md_string (self : Std_mdexpander) (net_dict : list pyval)
    (brian_verbose github_md : bool) : result string * Std_mdexpander :=
  let len := Z.of_nat (length net_dict) in
  let self := set_github_md self github_md in
  let outcome :=
    overall_string <- network_header net_dict ;;
    for_acc (fun run_indx =>
               run_dict <- getrun net_dict run_indx ;;
               run_string self brian_verbose len run_indx run_dict)
            (seq 0 (length net_dict)) overall_string in
  match outcome with
  | Ok overall_string => (Ok overall_string, set_md_text self overall_string)
  | Raise e => (Raise e, self)
  end.

End Expander.

(** ** A concrete choice of the imported helpers

    Used to run the expander on examples: the markdown templates without
    escaping, a printer that wraps the text in [$$], objects that print as
    their text, and arrays that compare with a str element by element (as
    numpy does from version 1.25 on), so that the comparison of an array of
    two or more elements has no truth value. *)

Module Demo.

#[export] Instance objects : Objects := {
  str_object v := match v with PQuantity shown => shown | _ => "<object>" end;
  ne_one_object _ := Ok true;
  truth_object _ := Raise ValueError;
  eq_str_object v s :=
    match v with
    | PArray [] => Ok false
    | PArray [x] => Ok (match Py.text_of x with
                        | Some t => String.eqb t s
                        | None => false
                        end)
    | PArray (_ :: _ :: _) => Raise ValueError
    | _ => Ok false
    end;
  contains_object v k :=
    match v with
    | PList xs | PArray xs =>
        Ok (existsb (fun x => match Py.text_of x with
                              | Some t => String.eqb t k
                              | None => false
                              end) xs)
    | _ => Raise TypeError
    end
}.

Fixpoint hashes (n : nat) : string :=
  match n with
  | O => ""
  | S k => String "#" (hashes k)
  end.

#[export] Instance markdown : MarkdownStrings := {
  header text level := hashes (Z.to_nat level) ++ " " ++ text;
  bold text := "**" ++ Py.str text ++ "**";
  horizontal_rule := "___"
}.

Definition text_of (x : string + string) : string :=
  match x with inl s => s | inr s => s end.

#[export] Instance sympy : Sympy := {
  expr := string;
  str_to_sympy text :=
    if String.eqb text "" then Raise (ExternalError "str_to_sympy") else Ok text;
  Derivative x := Ok ("d(" ++ text_of x ++ ")/dt");
  latex x := "$$" ++ text_of x ++ "$$"
}.

Definition fresh : Std_mdexpander := {| github_md := None; md_text := None |}.
Definition plain : Std_mdexpander := {| github_md := Some false; md_text := None |}.

(** A run with one neuron group, one component key outside the map, an
    initializer and a connection. *)
Definition neurongroup : pyval :=
  PDict [ ("name", PStr "grp"); ("N", PInt 10);
          ("equations",
            PDict [("v", PDict [("type", PStr "differential equation");
                                ("expr", PStr "(1 - v)/tau");
                                ("unit", PQuantity "V")])]);
          ("user_method", PStr "exact") ].

Definition initializer : pyval :=
  PDict [ ("source", PStr "grp"); ("variable", PStr "v"); ("value", PInt 0);
          ("index", PList [PInt 1; PInt 2]); ("type", PStr "initializer") ].

Definition connector : pyval :=
  PDict [ ("source", PStr "grp"); ("target", PStr "grp"); ("i", PInt 1);
          ("j", PArray [PInt 2; PInt 3]); ("probability", PInt 1);
          ("n_connections", PInt 1); ("type", PStr "connect") ].

Definition run (duration : string) : pyval :=
  PDict [ ("duration", PQuantity duration);
          ("components", PDict [("neurongroup", PList [neurongroup])]);
          ("initializers_connectors", PList [connector; initializer]) ].

Definition bare_run (components : list (string * pyval)) : pyval :=
  PDict [ ("duration", PQuantity "10. ms"); ("components", PDict components) ].

Definition monitor (record : pyval) : pyval :=
  PDict [ ("variables", PList [PStr "v"]); ("source", PStr "grp");
          ("record", record); ("event", PStr "spike") ].

Definition monitor_head : string := Str.tab ++ "Monitors variable: $v$ of grp".

Definition synapse : pyval := PDict [ ("source", PStr "grp"); ("target", PStr "grp") ].

(** The section of a run without components. *)
Definition bare_section : string :=
  Str.endl ++ "Duration of simulation is **10. ms**" ++ Str.endll.

(** The same as the second of two runs. *)
Definition second_bare_section : string :=
  "### Run 2 details" ++ Str.endl ++
  "Duration of simulation is **10. ms**" ++ Str.endll.

(** The initializer with another index. *)
Definition initializer_at (index : pyval) : pyval :=
  PDict [ ("source", PStr "grp"); ("variable", PStr "v"); ("value", PInt 0);
          ("index", index); ("type", PStr "initializer") ].

(** An initializer of all members with the given ['type'], and a run without
    components that holds the given entries. *)
Definition initializer_typed (type : pyval) : pyval :=
  PDict [ ("source", PStr "grp"); ("variable", PStr "v"); ("value", PInt 0);
          ("index", PBool true); ("type", type) ].

Definition run_of (entries : list pyval) : pyval :=
  PDict [ ("duration", PQuantity "10. ms"); ("components", PDict []);
          ("initializers_connectors", PList entries) ].

Definition connector_items : list (string * pyval) :=
  [ ("source", PStr "grp"); ("target", PStr "grp"); ("i", PInt 1);
    ("probability", PInt 1); ("n_connections", PInt 1) ].

Definition synapse_items : list (string * pyval) :=
  [ ("source", PStr "grp"); ("target", PStr "grp") ].

(** A spike generator as the exporter gives it when no period is set. *)
Definition spikegenerator_items : list (string * pyval) :=
  [ ("name", PStr "gen"); ("N", PInt 1); ("indices", PArray [PInt 0]);
    ("times", PList [PQuantity "10. ms"]) ].

Definition run_with_inactive : pyval :=
  PDict [ ("duration", PQuantity "10. ms"); ("components", PDict []);
          ("inactive", PList [PStr "grp"; PStr "mon"]) ].

End Demo.

(** ** Definitions used to state the properties *)

(** What [check_plural] answers once the count has passed one. *)
Definition plural_of (singular_word : option string) : result string :=
  match singular_word with
  | None => Ok "s"
  | Some w =>
      if String.eqb w "" then Ok "s"
      else match Py.assoc w singular_plural_dict with
           | Some plural => Ok plural
           | None => Raise Exception
           end
  end.

(** [s] with every newline (the character 10) turned into [';']: splitting
    is the inverse of joining with [';'] on such a text. *)
Fixpoint semicolons (s : string) : string :=
  match s with
  | EmptyString => ""
  | String c s' => String (if Ascii.eqb c "010" then ";"%char else c) (semicolons s')
  end.

(** A text with neither a [';'] nor a newline. *)
Fixpoint separator_free (s : string) : bool :=
  match s with
  | EmptyString => true
  | String c s' =>
      (negb (Ascii.eqb c ";") && negb (Ascii.eqb c "010") && separator_free s')%bool
  end.

(** The test for "a statement with an assignment operator". *)
Definition has_assignment (statement : string) : bool :=
  (Str.contains "+=" statement || Str.contains "=" statement ||
   Str.contains "-=" statement)%bool.

(** The operator written between the two rendered sides. *)
Definition assignment_operator (equals statement : string) : string :=
  if Str.contains "+=" statement then "+="
  else if Str.contains "-=" statement then "-="
  else equals.

Section StatementTexts.
Context {md : MarkdownStrings} {sympy : Sympy} {objects : Objects}.

(** A statement with its two sides rendered around the operator. *)
Definition assignment_text (self : Std_mdexpander) (equals statement : string)
    : result string :=
  match Str.split_assign statement with
  | [lhs; rhs] =>
      l <- render_expression self (PStr lhs) false ;;
      r <- render_expression self (PStr rhs) false ;;
      Ok (l ++ assignment_operator equals statement ++ r)
  | _ => Raise ValueError
  end.

(** The text of one piece: rendered whole, or as an assignment; a piece
    without an operator gives no text when the sides are to be separated. *)
Definition piece_text (self : Std_mdexpander) (differential separate : bool)
    (equals piece : string) : result string :=
  if separate then
    if has_assignment piece then assignment_text self equals piece else Ok ""
  else render_expression self (PStr piece) differential.

End StatementTexts.

Section ClauseTexts.
Context {md : MarkdownStrings} {sympy : Sympy} {objects : Objects}.

(** What [expand_EventMonitor] writes after the member clause. *)
Definition event_suffix (event : pyval) : string :=
  " when event " ++ bold event ++ " is triggered." ++ Str.endll.

(** The identifiers an initializer names, as [expand_initializer] ends. *)
Definition associated_identifiers (self : Std_mdexpander) (initializer : pyval)
    : result string :=
  has_identifiers <- Py.contains "identifiers" initializer ;;
  if has_identifiers then
    identifiers <- Py.getitem initializer "identifiers" ;;
    plural <- check_plural identifiers None true ;;
    ids <- expand_identifiers self identifiers ;;
    Ok (". Identifier" ++ plural ++ " associated: " ++ ids)
  else Ok "".

End ClauseTexts.

(** The keys of [func_map]. *)
Definition nine_keys : list string :=
  [ "neurongroup"; "poissongroup"; "spikegeneratorgroup"; "statemonitor";
    "spikemonitor"; "eventmonitor"; "populationratemonitor"; "synapses";
    "poissoninput" ].

(** The plural marker of a list with [n] members. *)
Definition plural_s (n : nat) : string := if (2 <=? n)%nat then "s" else "".

(** An entry of ['initializers_connectors'] whose ['type'] is the constant
    ['initializer'] itself (the test of the sorting loop is [is]). *)
Definition is_initializer (entry : pyval) : bool :=
  match Py.getitem entry "type" with
  | Ok ty => is_literal ty "initializer"
  | Raise _ => false
  end.

Definition is_connector (entry : pyval) : bool := negb (is_initializer entry).

Section SectionTexts.
Context {md : MarkdownStrings} {objects : Objects}.

(** The initializer section, given the bullets of its members: nothing when
    there is none. *)
Definition initializer_text (brian_verbose : bool) (bullets : list string) : string :=
  match bullets with
  | [] => ""
  | _ :: _ =>
      bold (PStr (if brian_verbose
                  then "Initializer" ++ plural_s (length bullets) ++ " defined:"
                  else "Initializing values at " ++ Str.spaces 40 ++ "starting:")) ++
      Str.endl ++ Str.cat bullets
  end.

(** The synaptic-connection section, given the bullets of its members. *)
Definition connector_text (bullets : list string) : string :=
  match bullets with
  | [] => ""
  | _ :: _ =>
      Str.endl ++
      bold (PStr ("Synaptic Connection" ++ plural_s (length bullets) ++ " defined:")) ++
      Str.endl ++ Str.cat bullets
  end.

(** The heading of a group of [n] components. *)
Definition group_heading (word : string) (n : nat) : string :=
  bold (PStr (word ++ plural_s n ++ " defined:")) ++ Str.endl.

(** The text a run starts with: the run header when there are several runs,
    and the duration. *)
Definition run_start (n : Z) (run_indx : nat) (duration : pyval) : string :=
  (if 1 <? n
   then header ("Run " ++ Str.of_Z (Z.of_nat run_indx + 1) ++ " details") 3 ++ Str.endl
   else Str.endl) ++
  "Duration of simulation is " ++ bold (PStr (Py.str duration)) ++ Str.endll.

(** The text before the runs, for [n] runs. *)
Definition network_sentence (n : Z) : string :=
  header "Network details" 1 ++ Str.endl ++
  "The Network " ++ (if n <=? 1 then "consists" else "consist") ++ " of " ++
  bold (PInt n) ++ " " ++ Str.spaces 27 ++
  (if n <=? 1 then "simulation run" else "simulation runs") ++
  Str.endl ++ horizontal_rule ++ Str.endl.

End SectionTexts.

(** The number of ['='] characters of a statement. *)
Fixpoint count_eq (s : string) : nat :=
  match s with
  | EmptyString => O
  | String c s' => ((if Ascii.eqb c "=" then 1 else 0) + count_eq s')%nat
  end.

(** The assignment operator a statement is written with. *)
Definition source_operator (statement : string) : string :=
  if Str.contains "+=" statement then "+="
  else if Str.contains "-=" statement then "-="
  else "=".

(** The number of [';'] and newline characters of a text. *)
Fixpoint count_separators (s : string) : nat :=
  match s with
  | EmptyString => O
  | String c s' =>
      ((if (Ascii.eqb c ";" || Ascii.eqb c "010")%bool then 1 else 0) +
       count_separators s')%nat
  end.

(** What [expand_initializer] writes for an ['index'] that is a string or a
    boolean. *)
Definition index_words (index : pyval) : string :=
  match index with
  | PStr s | PStrCopy s =>
      if (String.eqb s "True" || String.eqb s "False")%bool
      then " to all members"
      else " on condition " ++ s
  | PBool true => " to all members"
  | PBool false => " to no member"
  | _ => ""
  end.

(** A text that ends with a blank line. *)
Definition ends_blank (s : string) : Prop := exists body, s = body ++ Str.endll.

(** * Properties *)

(** ** Strings and the result monad *)

Lemma append_assoc (a b c : string) : (a ++ b) ++ c = a ++ (b ++ c).
Proof. induction a as [|x a IH]; simpl; [reflexivity | now rewrite IH]. Qed.

Lemma append_nil_r (a : string) : a ++ "" = a.
Proof. induction a as [|x a IH]; simpl; [reflexivity | now rewrite IH]. Qed.

Lemma length_append (a b : string) :
  String.length (a ++ b) = (String.length a + String.length b)%nat.
Proof. induction a as [|x a IH]; simpl; [reflexivity | now rewrite IH]. Qed.

Lemma substring_prefix (a b : string) :
  String.substring 0 (String.length a) (a ++ b) = a.
Proof.
  induction a as [|x a IH]; simpl.
  - destruct b; reflexivity.
  - now rewrite IH.
Qed.

(** [(a + b)[:-len(b)]] is [a]. *)
Lemma upto_last_append (a b : string) :
  Str.upto_last (String.length b) (a ++ b) = a.
Proof.
  unfold Str.upto_last. rewrite length_append.
  replace (String.length a + String.length b - String.length b)%nat
    with (String.length a) by lia.
  apply substring_prefix.
Qed.

(** Concatenations are compared with all appends associated to the right. *)
Ltac strings :=
  repeat first [ rewrite append_assoc | rewrite append_nil_r
               | progress cbn [String.append] ];
  try reflexivity.

Lemma append_inv_head (a b c : string) : a ++ b = a ++ c -> b = c.
Proof.
  induction a as [|x a IH]; simpl; intros H; [exact H |].
  injection H as H. auto.
Qed.

Lemma bind_ext {A B} (c1 c2 : result A) (k1 k2 : A -> result B) :
  c1 = c2 -> (forall a, k1 a = k2 a) -> bind c1 k1 = bind c2 k2.
Proof. intros -> H. destruct c2; simpl; auto. Qed.

Lemma bind_Ok_inv {A B} (c : result A) (k : A -> result B) (b : B) :
  bind c k = Ok b -> exists a, c = Ok a /\ k a = Ok b.
Proof. destruct c as [a|e]; simpl; intros H; [eauto | discriminate]. Qed.

Lemma mapM_ext {A B} (g1 g2 : A -> result B) (xs : list A) :
  (forall x, g1 x = g2 x) -> mapM g1 xs = mapM g2 xs.
Proof.
  intros H. induction xs as [|x xs IH]; simpl; [reflexivity |].
  rewrite H, IH. reflexivity.
Qed.

Lemma mapM_ext_Forall {A B} (g1 g2 : A -> result B) (xs : list A) :
  Forall (fun x => g1 x = g2 x) xs -> mapM g1 xs = mapM g2 xs.
Proof.
  induction 1 as [|x xs Hx _ IH]; simpl; [reflexivity |].
  rewrite Hx, IH. reflexivity.
Qed.

Lemma for_acc_ext {A} (g1 g2 : A -> result string) (xs : list A) (acc : string) :
  (forall x, g1 x = g2 x) -> for_acc g1 xs acc = for_acc g2 xs acc.
Proof.
  intros H. revert acc. induction xs as [|x xs IH]; intros acc; simpl; [reflexivity |].
  rewrite H. destruct (g2 x); simpl; auto.
Qed.

(** A loop that appends to an accumulator adds the texts of the items in
    order, and stops at the first item that raises. *)
Lemma for_acc_mapM {A} (g : A -> result string) (xs : list A) (acc : string) :
  for_acc g xs acc = (ts <- mapM g xs ;; Ok (acc ++ Str.cat ts)).
Proof.
  revert acc. induction xs as [|x xs IH]; intros acc; simpl.
  - now rewrite append_nil_r.
  - destruct (g x) as [t|e]; simpl; [| reflexivity].
    rewrite IH. destruct (mapM g xs) as [ts|e]; simpl; [| reflexivity].
    now rewrite append_assoc.
Qed.

Lemma mapM_length {A B} (g : A -> result B) (xs : list A) (ys : list B) :
  mapM g xs = Ok ys -> length ys = length xs.
Proof.
  revert ys. induction xs as [|x xs IH]; simpl; intros ys H.
  - now inversion H.
  - destruct (g x) as [y|e]; simpl in H; [| discriminate].
    destruct (mapM g xs) as [ys'|e]; simpl in H; [| discriminate].
    inversion H; subst. simpl. f_equal. now apply IH.
Qed.

(** ** [check_plural] *)

Lemma iter_has_iter (v : pyval) (items : list pyval) :
  Py.iter v = Ok items -> Py.hasattr v "__iter__" = true.
Proof. destruct v; simpl; intros H; try discriminate; reflexivity. Qed.

Lemma check_plural_loop_many (x y : pyval) (rest : list pyval) (sw : option string) :
  check_plural_loop (x :: y :: rest) 0 sw = plural_of sw.
Proof.
  simpl. destruct sw as [w|]; simpl; [| reflexivity].
  destruct (String.eqb w ""); reflexivity.
Qed.

Lemma check_plural_loop_few (items : list pyval) (sw : option string) :
  (length items <= 1)%nat -> check_plural_loop items 0 sw = Ok "".
Proof.
  destruct items as [|x [|y rest]]; simpl; intros H; try reflexivity. lia.
Qed.

Lemma check_plural_iterable (v : pyval) (items : list pyval) (sw : option string)
    (ac : bool) :
  Py.iter v = Ok items ->
  check_plural v sw ac = check_plural_loop items 0 sw.
Proof.
  intros H. unfold check_plural. rewrite (iter_has_iter _ _ H), H. reflexivity.
Qed.

Lemma check_plural_list (xs : list pyval) :
  check_plural (PList xs) None true = Ok (if (2 <=? length xs)%nat then "s" else "").
Proof. destruct xs as [|x [|y rest]]; reflexivity. Qed.

(** C4.  The answer of [check_plural].  For an argument that iterates over
    more than one element the answer is ['s'] when no singular word is given,
    ['indices'] for ['index'] and ['properties'] for ['property']; for an
    argument that iterates over at most one element, and for an argument
    without [__iter__] when [allow_constants] is true, it is the empty
    string. *)
Theorem check_plural_result :
  forall (iterable : pyval) (singular_word : option string) (allow_constants : bool),
    (forall items, Py.iter iterable = Ok items -> (1 < length items)%nat ->
       (singular_word = None ->
          check_plural iterable singular_word allow_constants = Ok "s") /\
       (singular_word = Some "index" ->
          check_plural iterable singular_word allow_constants = Ok "indices") /\
       (singular_word = Some "property" ->
          check_plural iterable singular_word allow_constants = Ok "properties")) /\
    (forall items, Py.iter iterable = Ok items -> (length items <= 1)%nat ->
       check_plural iterable singular_word allow_constants = Ok "") /\
    (Py.hasattr iterable "__iter__" = false -> allow_constants = true ->
       check_plural iterable singular_word allow_constants = Ok "").
Proof.
  intros iterable sw ac. repeat split.
  - intros Hsw. rewrite (check_plural_iterable _ _ sw ac H).
    destruct items as [|x [|y rest]]; simpl in H0; try lia.
    rewrite check_plural_loop_many, Hsw. reflexivity.
  - intros Hsw. rewrite (check_plural_iterable _ _ sw ac H).
    destruct items as [|x [|y rest]]; simpl in H0; try lia.
    rewrite check_plural_loop_many, Hsw. reflexivity.
  - intros Hsw. rewrite (check_plural_iterable _ _ sw ac H).
    destruct items as [|x [|y rest]]; simpl in H0; try lia.
    rewrite check_plural_loop_many, Hsw. reflexivity.
  - intros items Hit Hlen. rewrite (check_plural_iterable _ _ sw ac Hit).
    now apply check_plural_loop_few.
  - intros Hattr Hac. unfold check_plural. rewrite Hattr, Hac. reflexivity.
Qed.

Lemma check_plural_result_witness :
  check_plural (PList [PInt 1; PInt 2]) None true = Ok "s" /\
  check_plural (PStr "ab") (Some "index") true = Ok "indices" /\
  check_plural (PArray [PInt 1; PInt 2; PInt 3]) (Some "property") false
    = Ok "properties" /\
  check_plural (PList [PInt 1]) (Some "word") false = Ok "" /\
  check_plural (PInt 5) None true = Ok "".
Proof.
  split; [| split; [| split; [| split]]].
  - destruct (check_plural_result (PList [PInt 1; PInt 2]) None true) as [Hmany _].
    destruct (Hmany [PInt 1; PInt 2] eq_refl (le_n 2)) as [Hs _].
    exact (Hs eq_refl).
  - destruct (check_plural_result (PStr "ab") (Some "index") true) as [Hmany _].
    destruct (Hmany [PStr "a"; PStr "b"] eq_refl (le_n 2)) as [_ [Hi _]].
    exact (Hi eq_refl).
  - destruct (check_plural_result (PArray [PInt 1; PInt 2; PInt 3])
                (Some "property") false) as [Hmany _].
    destruct (Hmany [PInt 1; PInt 2; PInt 3] eq_refl (le_S 2 2 (le_n 2)))
      as [_ [_ Hp]].
    exact (Hp eq_refl).
  - destruct (check_plural_result (PList [PInt 1]) (Some "word") false) as [_ [Hfew _]].
    exact (Hfew [PInt 1] eq_refl (le_n 1)).
  - destruct (check_plural_result (PInt 5) None true) as [_ [_ Hconst]].
    exact (Hconst eq_refl eq_refl).
Defined.

Lemma assoc_singular_plural (w : string) :
  Py.assoc w singular_plural_dict = None <-> (w <> "index" /\ w <> "property").
Proof.
  unfold singular_plural_dict. simpl.
  destruct (String.eqb_spec w "index") as [->|Hi]; [split; [discriminate | tauto] |].
  destruct (String.eqb_spec w "property") as [->|Hp]; [split; [discriminate | tauto] |].
  tauto.
Qed.

Lemma plural_of_raises (sw : option string) (e : exn) :
  plural_of sw = Raise e <->
  (e = Exception /\
   exists w, sw = Some w /\ w <> "" /\ w <> "index" /\ w <> "property").
Proof.
  unfold plural_of. destruct sw as [w|].
  - destruct (String.eqb_spec w "") as [->|Hne].
    + split; [discriminate |]. intros [_ [w [Hw [Hn _]]]]. inversion Hw; subst. congruence.
    + destruct (Py.assoc w singular_plural_dict) as [p|] eqn:Hp.
      * split; [discriminate |]. intros [_ [w' [Hw [_ Hk]]]]. inversion Hw; subst.
        apply assoc_singular_plural in Hk. congruence.
      * apply assoc_singular_plural in Hp. split.
        -- intros H. inversion H; subst. split; [reflexivity |]. exists w. tauto.
        -- intros [-> _]. reflexivity.
  - split; [discriminate |]. intros [_ [w [Hw _]]]. discriminate.
Qed.

(** C5, as the code has it.  [check_plural] raises in exactly three
    situations and returns in all others: [IndexError] when the argument has
    no [__iter__] and [allow_constants] is false; [TypeError] when the
    argument has [__iter__] but cannot be iterated (a scalar Quantity, a
    zero-dimensional array); [Exception] when the argument iterates over at
    least two elements and the singular word is a non-empty string other than
    ['index'] and ['property'].  An empty singular word counts as none. *)
Theorem check_plural_raises :
  forall (iterable : pyval) (singular_word : option string) (allow_constants : bool)
         (e : exn),
    check_plural iterable singular_word allow_constants = Raise e <->
      (e = IndexError /\ Py.hasattr iterable "__iter__" = false /\
       allow_constants = false) \/
      (e = TypeError /\ exists shown, iterable = PQuantity shown) \/
      (e = Exception /\
       exists items w, Py.iter iterable = Ok items /\ (2 <= length items)%nat /\
         singular_word = Some w /\ w <> "" /\ w <> "index" /\ w <> "property").
Proof.
  intros v sw ac e.
  assert (Hiterable : forall items, Py.iter v = Ok items ->
            Py.hasattr v "__iter__" = true /\ (forall q, v <> PQuantity q)).
  { intros items H. split; [eapply iter_has_iter; eauto |].
    intros q ->. discriminate. }
  destruct (Py.iter v) as [items|ex] eqn:Hit.
  - destruct (Hiterable items eq_refl) as [Hattr Hq].
    rewrite (check_plural_iterable _ _ sw ac Hit).
    destruct items as [|x [|y rest]].
    + simpl. split; [discriminate |].
      intros [[_ [H _]] | [[_ [q H]] | [_ [items [w [H [Hl _]]]]]]];
        [congruence | now apply Hq in H |].
      inversion H; subst. simpl in Hl. lia.
    + simpl. split; [discriminate |].
      intros [[_ [H _]] | [[_ [q H]] | [_ [items [w [H [Hl _]]]]]]];
        [congruence | now apply Hq in H |].
      inversion H; subst. simpl in Hl. lia.
    + rewrite check_plural_loop_many, plural_of_raises. split.
      * intros [-> [w Hw]]. right; right. split; [reflexivity |].
        exists (x :: y :: rest), w. split; [reflexivity |]. split; [simpl; lia | exact Hw].
      * intros [[_ [H _]] | [[_ [q H]] | [He [items [w [_ [_ Hw]]]]]]];
          [congruence | now apply Hq in H |].
        split; [exact He | exists w; exact Hw].
  - unfold check_plural. destruct v; simpl in Hit; try discriminate; simpl.
    + (* None *)
      destruct ac; simpl; split; try discriminate.
      * intros [[_ [_ H]] | [[_ [q H]] | [_ [items [w [H _]]]]]]; discriminate.
      * intros H; inversion H; subst. left. auto.
      * intros [[-> _] | [[_ [q H]] | [_ [items [w [H _]]]]]];
          [reflexivity | discriminate | discriminate].
    + destruct ac; simpl; split; try discriminate.
      * intros [[_ [_ H]] | [[_ [q H]] | [_ [items [w [H _]]]]]]; discriminate.
      * intros H; inversion H; subst. left. auto.
      * intros [[-> _] | [[_ [q H]] | [_ [items [w [H _]]]]]];
          [reflexivity | discriminate | discriminate].
    + destruct ac; simpl; split; try discriminate.
      * intros [[_ [_ H]] | [[_ [q H]] | [_ [items [w [H _]]]]]]; discriminate.
      * intros H; inversion H; subst. left. auto.
      * intros [[-> _] | [[_ [q H]] | [_ [items [w [H _]]]]]];
          [reflexivity | discriminate | discriminate].
    + destruct ac; simpl; split; try discriminate.
      * intros [[_ [_ H]] | [[_ [q H]] | [_ [items [w [H _]]]]]]; discriminate.
      * intros H; inversion H; subst. left. auto.
      * intros [[-> _] | [[_ [q H]] | [_ [items [w [H _]]]]]];
          [reflexivity | discriminate | discriminate].
    + (* a scalar Quantity *)
      split.
      * intros H; inversion H; subst. right; left. eauto.
      * intros [[_ [H _]] | [[-> _] | [_ [items [w [H _]]]]]];
          [discriminate | reflexivity | discriminate].
Qed.

(** C5, the claim as stated fails: with two elements and the empty string as
    singular word (given, and neither ['index'] nor ['property']) the code
    returns ['s']; and a scalar Quantity, which has [__iter__], makes it raise
    a [TypeError], a third kind of error. *)
Lemma check_plural_two_situations_counterexample :
  (Py.iter (PList [PInt 0; PInt 1]) = Ok [PInt 0; PInt 1] /\
   "" <> "index" /\ "" <> "property" /\
   check_plural (PList [PInt 0; PInt 1]) (Some "") true = Ok "s") /\
  (Py.hasattr (PQuantity "10. ms") "__iter__" = true /\
   check_plural (PQuantity "10. ms") None true = Raise TypeError).
Proof. repeat split; discriminate. Qed.

(** ** The monitors *)

Section Monitors.
Context {md : MarkdownStrings} {sympy : Sympy} {objects : Objects}.

(** C8.  [expand_SpikeMonitor] and [expand_EventMonitor] return the same
    for every monitor dictionary (and raise the same). *)
Theorem expand_SpikeMonitor_is_expand_EventMonitor :
  forall (self : Std_mdexpander) (d : pyval),
    expand_SpikeMonitor self d = expand_EventMonitor self d.
Proof. intros self d. unfold expand_SpikeMonitor. reflexivity. Qed.

End Monitors.

(** ** [prepare_math_statements] *)

Lemma split_lines_nonempty (s : string) : Str.split_lines s <> [].
Proof.
  destruct s as [|c s]; simpl; [discriminate |].
  destruct (Str.is_line_separator c); [discriminate |].
  destruct (Str.split_lines s); discriminate.
Qed.

Lemma join_cons (sep x : string) (xs : list string) :
  xs <> [] -> Str.join sep (x :: xs) = x ++ sep ++ Str.join sep xs.
Proof. destruct xs; [congruence | reflexivity]. Qed.

Lemma join_push (sep : string) (c : ascii) (ps : list string) :
  ps <> [] -> Str.join sep (Str.push c ps) = String c (Str.join sep ps).
Proof.
  destruct ps as [|p [|q ps]]; [congruence | reflexivity | reflexivity].
Qed.

(** The pattern of the split matches the semicolon and the newline, and
    nothing else. *)
Lemma is_line_separator_chars (c : ascii) :
  Str.is_line_separator c = (Ascii.eqb c ";" || Ascii.eqb c "010")%bool.
Proof. reflexivity. Qed.

Lemma split_lines_join (s : string) :
  Str.join ";" (Str.split_lines s) = semicolons s.
Proof.
  induction s as [|c s IH]; [reflexivity |].
  cbn [Str.split_lines semicolons]. rewrite is_line_separator_chars.
  destruct (Ascii.eqb_spec c ";") as [->|Hsemi]; cbn [orb].
  - rewrite join_cons by apply split_lines_nonempty. cbn. now rewrite IH.
  - destruct (Ascii.eqb_spec c "010") as [->|Hnl].
    + rewrite join_cons by apply split_lines_nonempty. cbn. now rewrite IH.
    + rewrite join_push by apply split_lines_nonempty. now rewrite IH.
Qed.

Lemma split_lines_separator_free (s : string) :
  Forall (fun piece => separator_free piece = true) (Str.split_lines s).
Proof.
  induction s as [|c s IH]; [repeat constructor |].
  cbn [Str.split_lines]. rewrite is_line_separator_chars.
  destruct (Ascii.eqb c ";" || Ascii.eqb c "010")%bool eqn:Hc.
  - constructor; [reflexivity | exact IH].
  - apply Bool.orb_false_iff in Hc as [Hsemi Hnl].
    destruct (Str.split_lines s) as [|p ps]; cbn [Str.push].
    + constructor; [cbn [separator_free]; now rewrite Hsemi, Hnl | constructor].
    + inversion IH; subst.
      constructor; [cbn [separator_free]; rewrite Hsemi, Hnl; assumption | assumption].
Qed.

(** A piece without separator is cut off at the first [';'] or newline, and
    a text without separator is one piece. *)
Lemma split_lines_piece (piece : string) (c : ascii) (rest : string) :
  separator_free piece = true ->
  Str.is_line_separator c = true ->
  Str.split_lines (piece ++ String c rest) = piece :: Str.split_lines rest.
Proof.
  intros Hfree Hc. induction piece as [|x piece IH].
  - cbn [String.append Str.split_lines]. now rewrite Hc.
  - cbn [separator_free] in Hfree.
    apply Bool.andb_true_iff in Hfree as [Hx Hfree].
    cbn [String.append Str.split_lines]. rewrite is_line_separator_chars.
    apply Bool.andb_true_iff in Hx as [Hsemi Hnl].
    apply Bool.negb_true_iff in Hsemi, Hnl. rewrite Hsemi, Hnl. cbn [orb].
    rewrite (IH Hfree). reflexivity.
Qed.

Lemma split_lines_one_piece (piece : string) :
  separator_free piece = true -> Str.split_lines piece = [piece].
Proof.
  induction piece as [|x piece IH]; [reflexivity |].
  cbn [separator_free]. intros Hfree.
  apply Bool.andb_true_iff in Hfree as [Hx Hfree].
  apply Bool.andb_true_iff in Hx as [Hsemi Hnl].
  apply Bool.negb_true_iff in Hsemi, Hnl.
  cbn [Str.split_lines]. rewrite is_line_separator_chars, Hsemi, Hnl. cbn [orb].
  rewrite (IH Hfree). reflexivity.
Qed.

(** Appending [sep] after every text and cutting the last [sep] joins the
    texts with [sep]. *)
Lemma cat_sep_join (sep : string) (ts : list string) :
  ts <> [] ->
  Str.cat (map (fun t => t ++ sep) ts) = Str.join sep ts ++ sep.
Proof.
  induction ts as [|t ts IH]; [congruence |]. intros _.
  destruct ts as [|u ts].
  - simpl. now rewrite append_nil_r.
  - rewrite join_cons by discriminate.
    change (Str.cat (map (fun t => t ++ sep) (t :: u :: ts)))
      with ((t ++ sep) ++ Str.cat (map (fun t => t ++ sep) (u :: ts))).
    rewrite IH by discriminate. now rewrite !append_assoc.
Qed.

Lemma mapM_map_bind {A B C} (g : A -> result B) (k : B -> C) (xs : list A) :
  mapM (fun x => r <- g x ;; Ok (k r)) xs = (rs <- mapM g xs ;; Ok (map k rs)).
Proof.
  induction xs as [|x xs IH]; simpl; [reflexivity |].
  destruct (g x) as [r|e]; simpl; [| reflexivity].
  rewrite IH. destruct (mapM g xs); reflexivity.
Qed.

(** The members of a list, each expanded and written after ['- ']. *)
Lemma mapM_bullet {md : MarkdownStrings} {sympy : Sympy} {objects : Objects}
    (expand : Std_mdexpander -> pyval -> result string) (self : Std_mdexpander)
    (members : list pyval) :
  mapM (bullet expand self) members =
  (expansions <- mapM (expand self) members ;;
   Ok (map (fun expansion => "- " ++ expansion) expansions)).
Proof. unfold bullet. apply mapM_map_bind. Qed.

Section Statements.
Context {md : MarkdownStrings} {sympy : Sympy} {objects : Objects}.

Lemma prepare_statement_piece_text (self : Std_mdexpander) (d sep : bool)
    (equals statement : string) :
  prepare_statement self d sep equals statement =
  (r <- piece_text self d sep equals statement ;; Ok (r ++ ", ")).
Proof.
  unfold prepare_statement, piece_text, has_assignment, assignment_text,
    assignment_operator.
  destruct sep; [| reflexivity].
  destruct (Str.contains "+=" statement || Str.contains "=" statement ||
            Str.contains "-=" statement)%bool; [| reflexivity].
  destruct (Str.split_assign statement) as [|lhs [|rhs [|x rest]]]; try reflexivity.
  destruct (Str.contains "+=" statement); [reflexivity |].
  destruct (Str.contains "-=" statement); reflexivity.
Qed.

Lemma prepare_math_statements_join (self : Std_mdexpander) (s : string)
    (d sep : bool) (equals : string) :
  prepare_math_statements self (PStr s) d sep equals =
  (texts <- mapM (piece_text self d sep equals) (Str.split_lines s) ;;
   Ok (Str.join ", " texts)).
Proof.
  unfold prepare_math_statements. simpl.
  rewrite (for_acc_ext _ _ _ _ (prepare_statement_piece_text self d sep equals)).
  rewrite for_acc_mapM, mapM_map_bind.
  destruct (mapM (piece_text self d sep equals) (Str.split_lines s)) as [ts|e] eqn:Hts;
    simpl; [| reflexivity].
  rewrite cat_sep_join.
  - f_equal. apply (upto_last_append (Str.join ", " ts) ", ").
  - intros ->. apply mapM_length in Hts. simpl in Hts.
    destruct (Str.split_lines s) eqn:Hs; [now apply split_lines_nonempty in Hs | discriminate].
Qed.

(** C6.  [prepare_math_statements] splits the text on every [';'] and
    every newline: what stands before the first [';'] or newline is the
    first piece and the rest is split in the same way, a text with neither
    is one piece (so the pieces hold no separator, and joined by [';'] they
    give the text back with its newlines as [';']).  It goes through the
    pieces in order.  Without [separate] every piece is rendered by
    [render_expression] with the [differential] flag.  With [separate], a
    piece with an assignment operator whose split gives a left and a right
    side is the rendered left side, then ['+='] if the piece has ['+='],
    ['-='] if it has ['-='], else [equals], then the rendered right side.
    Each piece is followed by [', '] and the last two characters are cut, so
    the texts come out joined by [', ']. *)
Theorem prepare_math_statements_pieces :
  forall (self : Std_mdexpander) (statements : string) (differential : bool)
         (equals : string),
    ((forall piece rest,
        separator_free piece = true ->
        Str.split_lines (piece ++ String ";" rest) = piece :: Str.split_lines rest /\
        Str.split_lines (piece ++ String "010" rest) = piece :: Str.split_lines rest) /\
     (forall piece, separator_free piece = true -> Str.split_lines piece = [piece]) /\
     Forall (fun piece => separator_free piece = true) (Str.split_lines statements) /\
     Str.join ";" (Str.split_lines statements) = semicolons statements) /\
    prepare_math_statements self (PStr statements) differential false equals =
      (texts <- mapM (fun piece => render_expression self (PStr piece) differential)
                     (Str.split_lines statements) ;;
       Ok (Str.join ", " texts)) /\
    (Forall (fun piece => has_assignment piece = true /\
                          exists lhs rhs, Str.split_assign piece = [lhs; rhs])
            (Str.split_lines statements) ->
     prepare_math_statements self (PStr statements) differential true equals =
       (texts <- mapM (assignment_text self equals) (Str.split_lines statements) ;;
        Ok (Str.join ", " texts))) /\
    (forall piece lhs rhs, Str.split_assign piece = [lhs; rhs] ->
       assignment_text self equals piece =
         (l <- render_expression self (PStr lhs) false ;;
          r <- render_expression self (PStr rhs) false ;;
          Ok (l ++ (if Str.contains "+=" piece then "+="
                    else if Str.contains "-=" piece then "-="
                    else equals) ++ r))) /\
    default_equals = "&#8592;".
Proof.
  intros self s d equals. repeat split.
  - now apply split_lines_piece.
  - now apply split_lines_piece.
  - now apply split_lines_one_piece.
  - apply split_lines_separator_free.
  - apply split_lines_join.
  - rewrite prepare_math_statements_join. reflexivity.
  - intros Hall. rewrite prepare_math_statements_join.
    apply bind_ext; [| reflexivity].
    apply mapM_ext_Forall. eapply Forall_impl; [| exact Hall].
    intros piece [Hop _]. unfold piece_text. now rewrite Hop.
  - intros piece lhs rhs Hsplit. unfold assignment_text. rewrite Hsplit. reflexivity.
Qed.

End Statements.

(** ** The record of a monitor *)

Lemma check_plural_array (xs : list pyval) :
  check_plural (PArray xs) None true = Ok (if (2 <=? length xs)%nat then "s" else "").
Proof. destruct xs as [|x [|y rest]]; reflexivity. Qed.

Section MonitorRecords.
Context {md : MarkdownStrings} {sympy : Sympy} {objects : Objects}.

Lemma join_strs_array (sep : string) (xs : list pyval) :
  join_strs sep (PArray xs) = Ok (Str.join sep (map Py.str xs)).
Proof. reflexivity. Qed.

Lemma expand_StateMonitor_record (self : Std_mdexpander) (mon : pyval)
    (head : string) (record : pyval) :
  monitored_variables self mon = Ok head ->
  Py.getitem mon "record" = Ok record ->
  expand_StateMonitor self mon =
    match record with
    | PBool true => Ok (head ++ " for all members")
    | PBool false => Ok head
    | PArray [] => Ok (head ++ " for no member")
    | PArray xs =>
        Ok (head ++ ", for member" ++ (if (2 <=? length xs)%nat then "s" else "") ++
            ": " ++ Str.join "," (map Py.str xs) ++ "." ++ Str.endll)
    | PQuantity _ => Raise TypeError
    | _ => Raise (AttributeError "size")
    end.
Proof.
  intros Hhead Hrec. unfold expand_StateMonitor. rewrite Hhead. simpl. rewrite Hrec. simpl.
  destruct record as [| [|] | | | | | | xs | |]; try reflexivity.
  destruct xs as [|x xs]; [reflexivity |].
  cbn [Py.isinstance_bool Py.size bind].
  replace (Z.of_nat (length (x :: xs)) =? 0) with false by reflexivity.
  rewrite check_plural_array, join_strs_array. reflexivity.
Qed.

Lemma expand_EventMonitor_record (self : Std_mdexpander) (mon : pyval)
    (head : string) (record : pyval) :
  monitored_variables self mon = Ok head ->
  Py.getitem mon "record" = Ok record ->
  expand_EventMonitor self mon =
    match record with
    | PBool true =>
        event <- Py.getitem mon "event" ;;
        Ok (head ++ " for all members" ++ event_suffix event)
    | PBool false =>
        event <- Py.getitem mon "event" ;; Ok (head ++ "" ++ event_suffix event)
    | PArray [] =>
        event <- Py.getitem mon "event" ;;
        Ok (head ++ " for no member" ++ event_suffix event)
    | PArray xs =>
        event <- Py.getitem mon "event" ;;
        Ok (head ++ (", for member" ++ (if (2 <=? length xs)%nat then "s" else "") ++
                     ": " ++ Str.join "," (map Py.str xs)) ++ event_suffix event)
    | PQuantity _ => Raise TypeError
    | _ => Raise (AttributeError "size")
    end.
Proof.
  intros Hhead Hrec. unfold expand_EventMonitor, event_suffix.
  rewrite Hhead. simpl. rewrite Hrec. simpl.
  destruct record as [| [|] | | | | | | xs | |]; try reflexivity.
  - simpl. apply bind_ext; [reflexivity |]. intros event.
    now rewrite !append_assoc.
  - destruct xs as [|x xs].
    + simpl. apply bind_ext; [reflexivity |]. intros event. now rewrite !append_assoc.
    + cbn [Py.isinstance_bool Py.size bind].
      replace (Z.of_nat (length (x :: xs)) =? 0) with false by reflexivity.
      rewrite check_plural_array, join_strs_array.
      cbn [bind]. apply bind_ext; [reflexivity |]. intros event.
      f_equal. strings.
Qed.

(** When is the record an array of size zero? *)
Lemma size_zero_array (record : pyval) :
  (Py.isinstance_bool record = false /\ Py.size record = Ok 0) <-> record = PArray [].
Proof.
  split.
  - intros [_ H]. destruct record as [| | | | | | | xs | |]; simpl in H; try discriminate.
    destruct xs; [reflexivity | discriminate].
  - intros ->. split; reflexivity.
Qed.

(** C10.  After the variables and the source, [expand_StateMonitor] and
    [expand_EventMonitor] write a member clause that depends on ['record']
    alone: nothing at all for the boolean [False]; [' for all members'] for
    the boolean [True], and for it alone; [' for no member'] for a
    non-boolean array of size zero, and for it alone.  ([head] is the text
    both start with; in [expand_EventMonitor] the sentence
    [' when event ... is triggered.'] and a blank line follow the clause.) *)
Theorem monitor_member_clause :
  forall (self : Std_mdexpander) (mon : pyval) (head : string) (record : pyval),
    monitored_variables self mon = Ok head ->
    Py.getitem mon "record" = Ok record ->
    (record = PBool false ->
       expand_StateMonitor self mon = Ok head /\
       expand_EventMonitor self mon =
         (event <- Py.getitem mon "event" ;;
          Ok (head ++ " when event " ++ bold event ++ " is triggered." ++ Str.endll))) /\
    (record = PBool true ->
       expand_StateMonitor self mon = Ok (head ++ " for all members") /\
       expand_EventMonitor self mon =
         (event <- Py.getitem mon "event" ;;
          Ok (head ++ " for all members" ++
              " when event " ++ bold event ++ " is triggered." ++ Str.endll))) /\
    (Py.isinstance_bool record = false -> Py.size record = Ok 0 ->
       expand_StateMonitor self mon = Ok (head ++ " for no member") /\
       expand_EventMonitor self mon =
         (event <- Py.getitem mon "event" ;;
          Ok (head ++ " for no member" ++
              " when event " ++ bold event ++ " is triggered." ++ Str.endll))) /\
    (forall out, expand_StateMonitor self mon = Ok out ->
       exists clause, out = head ++ clause /\
         (record = PBool false -> clause = "") /\
         (clause = " for all members" <-> record = PBool true) /\
         (clause = " for no member" <->
            (Py.isinstance_bool record = false /\ Py.size record = Ok 0))) /\
    (forall out, expand_EventMonitor self mon = Ok out ->
       exists clause event, Py.getitem mon "event" = Ok event /\
         out = head ++ clause ++ event_suffix event /\
         (record = PBool false -> clause = "") /\
         (clause = " for all members" <-> record = PBool true) /\
         (clause = " for no member" <->
            (Py.isinstance_bool record = false /\ Py.size record = Ok 0))).
Proof.
  intros self mon head record Hhead Hrec.
  pose proof (expand_StateMonitor_record self mon head record Hhead Hrec) as HS.
  pose proof (expand_EventMonitor_record self mon head record Hhead Hrec) as HE.
  split; [| split; [| split; [| split]]].
  - intros ->. split; [exact HS | exact HE].
  - intros ->. split; [exact HS | exact HE].
  - intros Hbool Hsize.
    assert (Hempty : record = PArray []) by (apply size_zero_array; now split).
    subst record. split; [exact HS | exact HE].
  - intros out Hout. rewrite HS in Hout.
    destruct record as [| [|] | | | | | | xs | |]; try discriminate.
    + inversion Hout; subst. exists " for all members". rewrite size_zero_array.
      repeat split; try discriminate; auto.
    + inversion Hout; subst. exists "". rewrite append_nil_r, size_zero_array.
      repeat split; try discriminate; auto.
    + destruct xs as [|x xs]; inversion Hout; subst.
      * exists " for no member". rewrite size_zero_array.
        repeat split; try discriminate; auto.
      * exists (", for member" ++ (if (2 <=? length (x :: xs))%nat then "s" else "") ++
                ": " ++ Str.join "," (map Py.str (x :: xs)) ++ "." ++ Str.endll).
        rewrite size_zero_array.
        repeat split; try discriminate; auto.
  - intros out Hout. rewrite HE in Hout.
    destruct record as [| [|] | | | | | | xs | |]; try discriminate.
    + apply bind_Ok_inv in Hout as [event [Hev Hout]]. inversion Hout; subst.
      exists " for all members", event. rewrite size_zero_array.
      repeat split; try discriminate; auto.
    + apply bind_Ok_inv in Hout as [event [Hev Hout]]. inversion Hout; subst.
      exists "", event. rewrite size_zero_array.
      repeat split; try discriminate; auto.
    + destruct xs as [|x xs]; apply bind_Ok_inv in Hout as [event [Hev Hout]];
        inversion Hout; subst.
      * exists " for no member", event. rewrite size_zero_array.
        repeat split; try discriminate; auto.
      * exists (", for member" ++ (if (2 <=? length (x :: xs))%nat then "s" else "") ++
                ": " ++ Str.join "," (map Py.str (x :: xs))), event.
        rewrite size_zero_array.
        repeat split; try discriminate; auto.
Qed.

End MonitorRecords.

(** ** The index of an initializer *)

Section Initializers.
Context {md : MarkdownStrings} {sympy : Sympy} {objects : Objects}.

(** No value has the attribute the joining branch asks for. *)
Lemma hasattr_iter_three_underscores (v : pyval) : Py.hasattr v "__iter___" = false.
Proof. reflexivity. Qed.

(** The comparison with a str is false for a value that is neither a str,
    nor an array, nor a quantity. *)
Lemma eq_str_plain (v : pyval) (s : string) :
  Py.isinstance_str v = false -> Py.has_size v = false -> Py.eq_str v s = Ok false.
Proof. destruct v; try discriminate; reflexivity. Qed.

(** An ['index'] that is neither a string nor a boolean reaches the test of
    the second branch, which compares it with ['True']: what the comparison
    raises, [expand_initializer] raises, once the variable, the source and
    the value are read. *)
Lemma expand_initializer_comparison_raises :
  forall (self : Std_mdexpander) (initializer index : pyval) (e : exn),
    Py.getitem initializer "index" = Ok index ->
    Py.isinstance_str index = false ->
    Py.isinstance_bool index = false ->
    Py.eq_str index "True" = Raise e ->
    expand_initializer self initializer =
      (variable <- Py.getitem initializer "variable" ;;
       variable_r <- render_expression self variable false ;;
       source <- Py.getitem initializer "source" ;;
       source <- Py.as_str source ;;
       value <- Py.getitem initializer "value" ;;
       value_r <- render_expression self value false ;;
       Raise e).
Proof.
  intros self initializer index e Hindex Hstr Hbool Htrue.
  unfold expand_initializer.
  repeat (apply bind_ext; [reflexivity |]; intro).
  rewrite Hindex. cbn [bind].
  assert (Hcond : is_condition index = false).
  { unfold is_condition. destruct index; try reflexivity; discriminate. }
  rewrite Hcond. unfold is_boolean. rewrite Hbool, Htrue. reflexivity.
Qed.


End Initializers.

(** ** The expander's attributes

    The expand functions read [github_md] only (in [render_expression]);
    two objects that agree on it expand alike. *)

Create HintDb same_self.

Ltac same_self :=
  repeat first
    [ match goal with |- ?x = ?x => reflexivity end
    | solve [auto with same_self nocore]
    | progress cbv zeta
    | match goal with
      | |- bind _ _ = bind _ _ => apply bind_ext; [ | intro ]
      | |- for_acc _ _ _ = for_acc _ _ _ => apply for_acc_ext; intro
      | |- mapM _ _ = mapM _ _ => apply mapM_ext; intro
      | |- (if ?b then _ else _) = (if ?b then _ else _) => destruct b
      | |- match ?x with _ => _ end = match ?x with _ => _ end => destruct x
      end ].

Section SameAttributes.
Context {md : MarkdownStrings} {sympy : Sympy} {objects : Objects}.
Variables s1 s2 : Std_mdexpander.
Hypothesis same : github_md s1 = github_md s2.

Lemma get_github_md_same : get_github_md s1 = get_github_md s2.
Proof. unfold get_github_md. now rewrite same. Qed.
Hint Resolve get_github_md_same : same_self.

Lemma render_expression_same e d : render_expression s1 e d = render_expression s2 e d.
Proof. unfold render_expression. same_self. Qed.
Hint Resolve render_expression_same : same_self.

Lemma prepare_statement_same d sep eq st :
  prepare_statement s1 d sep eq st = prepare_statement s2 d sep eq st.
Proof. unfold prepare_statement. same_self. Qed.
Hint Resolve prepare_statement_same : same_self.

Lemma prepare_math_statements_same st d sep eq :
  prepare_math_statements s1 st d sep eq = prepare_math_statements s2 st d sep eq.
Proof. unfold prepare_math_statements. same_self. Qed.
Hint Resolve prepare_math_statements_same : same_self.

Lemma expand_identifier_same k v : expand_identifier s1 k v = expand_identifier s2 k v.
Proof. unfold expand_identifier. same_self. Qed.
Hint Resolve expand_identifier_same : same_self.

Lemma expand_identifiers_same d : expand_identifiers s1 d = expand_identifiers s2 d.
Proof. unfold expand_identifiers. same_self. Qed.
Hint Resolve expand_identifiers_same : same_self.

Lemma expand_event_same k d : expand_event s1 k d = expand_event s2 k d.
Proof. unfold expand_event. same_self. Qed.
Hint Resolve expand_event_same : same_self.

Lemma expand_events_same d : expand_events s1 d = expand_events s2 d.
Proof. unfold expand_events. same_self. Qed.
Hint Resolve expand_events_same : same_self.

Lemma expand_equation_same k d : expand_equation s1 k d = expand_equation s2 k d.
Proof. unfold expand_equation. same_self. Qed.
Hint Resolve expand_equation_same : same_self.

Lemma expand_equations_same d : expand_equations s1 d = expand_equations s2 d.
Proof. unfold expand_equations. same_self. Qed.
Hint Resolve expand_equations_same : same_self.

Lemma expand_runregularly_same d : expand_runregularly s1 d = expand_runregularly s2 d.
Proof. unfold expand_runregularly. same_self. Qed.
Hint Resolve expand_runregularly_same : same_self.

Lemma expand_NeuronGroup_same d : expand_NeuronGroup s1 d = expand_NeuronGroup s2 d.
Proof. unfold expand_NeuronGroup. same_self. Qed.

Lemma expand_initializer_same d : expand_initializer s1 d = expand_initializer s2 d.
Proof. unfold expand_initializer. same_self. Qed.

Lemma expand_connector_same d : expand_connector s1 d = expand_connector s2 d.
Proof. unfold expand_connector. same_self. Qed.

Lemma run_regularly_block_same d acc :
  run_regularly_block s1 d acc = run_regularly_block s2 d acc.
Proof. unfold run_regularly_block. same_self. Qed.
Hint Resolve run_regularly_block_same : same_self.

Lemma constants_block_same d acc : constants_block s1 d acc = constants_block s2 d acc.
Proof. unfold constants_block. same_self. Qed.
Hint Resolve constants_block_same : same_self.

Lemma expand_PoissonGroup_same d : expand_PoissonGroup s1 d = expand_PoissonGroup s2 d.
Proof. unfold expand_PoissonGroup. same_self. Qed.

Lemma expand_SpikeGeneratorGroup_same d :
  expand_SpikeGeneratorGroup s1 d = expand_SpikeGeneratorGroup s2 d.
Proof. unfold expand_SpikeGeneratorGroup. same_self. Qed.

Lemma monitored_variables_same d : monitored_variables s1 d = monitored_variables s2 d.
Proof. unfold monitored_variables. same_self. Qed.
Hint Resolve monitored_variables_same : same_self.

Lemma expand_StateMonitor_same d : expand_StateMonitor s1 d = expand_StateMonitor s2 d.
Proof. unfold expand_StateMonitor. same_self. Qed.

Lemma expand_EventMonitor_same d : expand_EventMonitor s1 d = expand_EventMonitor s2 d.
Proof. unfold expand_EventMonitor. same_self. Qed.

Lemma expand_SpikeMonitor_same d : expand_SpikeMonitor s1 d = expand_SpikeMonitor s2 d.
Proof. unfold expand_SpikeMonitor. apply expand_EventMonitor_same. Qed.

Lemma expand_PopulationRateMonitor_same d :
  expand_PopulationRateMonitor s1 d = expand_PopulationRateMonitor s2 d.
Proof. reflexivity. Qed.

Lemma expand_pathway_same d : expand_pathway s1 d = expand_pathway s2 d.
Proof. unfold expand_pathway. same_self. Qed.
Hint Resolve expand_pathway_same : same_self.

Lemma expand_pathways_same d : expand_pathways s1 d = expand_pathways s2 d.
Proof. unfold expand_pathways. same_self. Qed.
Hint Resolve expand_pathways_same : same_self.

Lemma expand_summed_variable_same d :
  expand_summed_variable s1 d = expand_summed_variable s2 d.
Proof. unfold expand_summed_variable. same_self. Qed.
Hint Resolve expand_summed_variable_same : same_self.

Lemma expand_summed_variables_same d :
  expand_summed_variables s1 d = expand_summed_variables s2 d.
Proof. unfold expand_summed_variables. same_self. Qed.
Hint Resolve expand_summed_variables_same : same_self.

Lemma expand_Synapses_same d : expand_Synapses s1 d = expand_Synapses s2 d.
Proof. unfold expand_Synapses. same_self. Qed.

Lemma expand_PoissonInput_same d : expand_PoissonInput s1 d = expand_PoissonInput s2 d.
Proof. unfold expand_PoissonInput. same_self. Qed.

Lemma assoc_In {A} (k : string) (items : list (string * A)) (v : A) :
  Py.assoc k items = Some v -> In (k, v) items.
Proof.
  induction items as [|[k' v'] items IH]; simpl; [discriminate |].
  destruct (String.eqb_spec k k') as [->|Hne].
  - intros H; inversion H; subst. now left.
  - intros H. right. auto.
Qed.

Lemma func_map_same (k : string) (entry : handler) (d : pyval) :
  Py.assoc k func_map = Some entry -> entry_f entry s1 d = entry_f entry s2 d.
Proof.
  intros H. apply assoc_In in H. unfold func_map in H. simpl in H.
  repeat (destruct H as [H|H]; [inversion H; subst; simpl |]); try contradiction.
  - apply expand_NeuronGroup_same.
  - apply expand_PoissonGroup_same.
  - apply expand_SpikeGeneratorGroup_same.
  - apply expand_StateMonitor_same.
  - apply expand_SpikeMonitor_same.
  - apply expand_EventMonitor_same.
  - apply expand_PopulationRateMonitor_same.
  - apply expand_Synapses_same.
  - apply expand_PoissonInput_same.
Qed.

Lemma expand_component_same bv item :
  expand_component s1 bv item = expand_component s2 bv item.
Proof.
  unfold expand_component. apply bind_ext; [| reflexivity].
  destruct (Py.assoc (fst item) func_map) as [entry|] eqn:Hk; [| reflexivity].
  cbv zeta. apply bind_ext; [reflexivity |]. intros plural.
  apply bind_ext; [reflexivity |]. intros members.
  apply for_acc_ext. intros m. unfold bullet.
  apply bind_ext; [| reflexivity]. eapply func_map_same; eauto.
Qed.

Lemma initializer_section_same bv inits acc :
  initializer_section s1 bv inits acc = initializer_section s2 bv inits acc.
Proof.
  unfold initializer_section. destruct inits; [reflexivity |].
  apply bind_ext; [reflexivity |]. intros acc'. apply for_acc_ext. intros x.
  unfold bullet. apply bind_ext; [apply expand_initializer_same | reflexivity].
Qed.

Lemma connector_section_same conns acc :
  connector_section s1 conns acc = connector_section s2 conns acc.
Proof.
  unfold connector_section. destruct conns; [reflexivity |]. cbv zeta.
  apply bind_ext; [reflexivity |]. intros plural. apply for_acc_ext. intros x.
  unfold bullet. apply bind_ext; [apply expand_connector_same | reflexivity].
Qed.

Lemma run_components_same bv n i rd :
  run_components s1 bv n i rd = run_components s2 bv n i rd.
Proof.
  unfold run_components. cbv zeta.
  do 3 (apply bind_ext; [reflexivity |]; intro).
  apply for_acc_ext. intros item. apply expand_component_same.
Qed.

Lemma run_string_same bv n i rd : run_string s1 bv n i rd = run_string s2 bv n i rd.
Proof.
  unfold run_string.
  apply bind_ext; [apply run_components_same |]. intros acc.
  apply bind_ext; [reflexivity |]. intros has.
  apply bind_ext; [reflexivity |]. intros sorted.
  apply bind_ext; [apply initializer_section_same |]. intros acc'.
  apply bind_ext; [apply connector_section_same | reflexivity].
Qed.

End SameAttributes.

(** ** The sections of a run *)

Lemma getitem_contains {objects : Objects} (d : pyval) (k : string) (v : pyval) :
  Py.getitem d k = Ok v -> Py.contains k d = Ok true.
Proof.
  destruct d; simpl; try discriminate.
  destruct (Py.assoc k items); [reflexivity | discriminate].
Qed.

Lemma is_initializer_type (entry : pyval) :
  is_initializer entry = true <-> Py.getitem entry "type" = Ok (PStr "initializer").
Proof.
  unfold is_initializer, is_literal. destruct (Py.getitem entry "type") as [ty|e].
  - destruct ty; simpl; try (split; [discriminate | intros H; inversion H]).
    rewrite String.eqb_eq. split; [intros -> | intros H; inversion H]; reflexivity.
  - split; discriminate.
Qed.

Lemma mapM_cons_length {A B} (g : A -> result B) (x : A) (xs : list A) (ys : list B) :
  mapM g (x :: xs) = Ok ys -> exists y ys', ys = y :: ys' /\ length ys' = length xs.
Proof.
  intros H. pose proof (mapM_length _ _ _ H) as Hlen.
  destruct ys as [|y ys']; [discriminate |]. exists y, ys'. split; [reflexivity |].
  simpl in Hlen. lia.
Qed.

Section RunSections.
Context {md : MarkdownStrings} {sympy : Sympy} {objects : Objects}.

(** The sorting loop keeps the order of the entries in both lists. *)
Lemma sort_initializers_connectors_filter (items initializer connector : list pyval) :
  sort_initializers_connectors items initializer connector =
  (_ <- mapM (fun entry => Py.getitem entry "type") items ;;
   Ok ((initializer ++ filter is_initializer items)%list,
       (connector ++ filter is_connector items)%list)).
Proof.
  revert initializer connector.
  induction items as [|entry items IH]; intros initializer connector.
  - simpl. now rewrite !app_nil_r.
  - cbn [sort_initializers_connectors mapM filter].
    destruct (Py.getitem entry "type") as [ty|e] eqn:Hty; cbn [bind]; [| reflexivity].
    assert (Hinit : is_initializer entry = is_literal ty "initializer")
      by (unfold is_initializer; now rewrite Hty).
    unfold is_connector at 1. rewrite Hinit.
    destruct (is_literal ty "initializer"); rewrite IH;
      destruct (mapM (fun entry => Py.getitem entry "type") items);
      cbn [bind negb]; try reflexivity; now rewrite <- app_assoc.
Qed.

Lemma initializer_section_text (self : Std_mdexpander) (bv : bool)
    (initializer : list pyval) (acc : string) :
  initializer_section self bv initializer acc =
  (bullets <- mapM (bullet expand_initializer self) initializer ;;
   Ok (acc ++ initializer_text bv bullets)).
Proof.
  destruct initializer as [|x xs]; [simpl; now rewrite append_nil_r |].
  unfold initializer_section.
  assert (Hhead : forall acc',
            for_acc (bullet expand_initializer self) (x :: xs) acc' =
            (bullets <- mapM (bullet expand_initializer self) (x :: xs) ;;
             Ok (acc' ++ Str.cat bullets))) by (intros; apply for_acc_mapM).
  destruct bv.
  - rewrite check_plural_list. cbn [bind]. rewrite Hhead.
    destruct (mapM (bullet expand_initializer self) (x :: xs)) as [bullets|e] eqn:Hb;
      cbn [bind]; [| reflexivity].
    destruct (mapM_cons_length _ _ _ _ Hb) as [b [bs [-> Hlen]]].
    unfold initializer_text, plural_s. cbn [length]. rewrite Hlen. f_equal. strings.
  - cbn [bind]. rewrite Hhead.
    destruct (mapM (bullet expand_initializer self) (x :: xs)) as [bullets|e] eqn:Hb;
      cbn [bind]; [| reflexivity].
    destruct (mapM_cons_length _ _ _ _ Hb) as [b [bs [-> Hlen]]].
    unfold initializer_text. f_equal. strings.
Qed.

Lemma connector_section_text (self : Std_mdexpander) (connector : list pyval)
    (acc : string) :
  connector_section self connector acc =
  (bullets <- mapM (bullet expand_connector self) connector ;;
   Ok (acc ++ connector_text bullets)).
Proof.
  destruct connector as [|x xs]; [simpl; now rewrite append_nil_r |].
  unfold connector_section. cbv zeta.
  rewrite check_plural_list. cbn [bind]. rewrite for_acc_mapM.
  destruct (mapM (bullet expand_connector self) (x :: xs)) as [bullets|e] eqn:Hb;
    cbn [bind]; [| reflexivity].
  destruct (mapM_cons_length _ _ _ _ Hb) as [b [bs [-> Hlen]]].
  unfold connector_text, plural_s. cbn [length]. rewrite Hlen. f_equal. strings.
Qed.

(** X17.  Without the key ['initializers_connectors'] a run has neither an
    initializer section nor a synaptic-connection section: after the
    components comes the inactive part at once.  With the key, the entries
    whose ['type'] is the constant ['initializer'] itself are expanded by
    [expand_initializer], in input order, each after ['- '], in the
    initializer section; all other entries (those whose ['type'] is an equal
    str that is another object among them) by [expand_connector], in input
    order, each after ['- '], in the synaptic-connection section that
    follows it; a section without members is not written. *)
Theorem initializer_and_connector_sections :
  forall (self : Std_mdexpander) (brian_verbose : bool) (n : Z) (run_indx : nat)
         (run_dict : pyval),
    (Py.contains "initializers_connectors" run_dict = Ok false ->
     run_string self brian_verbose n run_indx run_dict =
       (before <- run_components self brian_verbose n run_indx run_dict ;;
        inactive_section run_dict before)) /\
    (forall init_conts entries,
       Py.getitem run_dict "initializers_connectors" = Ok init_conts ->
       Py.iter init_conts = Ok entries ->
       run_string self brian_verbose n run_indx run_dict =
         (before <- run_components self brian_verbose n run_indx run_dict ;;
          _ <- mapM (fun entry => Py.getitem entry "type") entries ;;
          inits <- mapM (expand_initializer self) (filter is_initializer entries) ;;
          conns <- mapM (expand_connector self) (filter is_connector entries) ;;
          inactive_section run_dict
            (before ++
             initializer_text brian_verbose
               (map (fun expansion => "- " ++ expansion) inits) ++
             connector_text (map (fun expansion => "- " ++ expansion) conns)))) /\
    (forall entry,
       (is_initializer entry = true <->
        Py.getitem entry "type" = Ok (PStr "initializer")) /\
       is_connector entry = negb (is_initializer entry)) /\
    (forall entry text,
       Py.getitem entry "type" = Ok (PStrCopy text) -> is_connector entry = true) /\
    initializer_text brian_verbose [] = "" /\ connector_text [] = "".
Proof.
  intros self bv n run_indx run_dict. repeat split.
  - intros Habsent. unfold run_string. apply bind_ext; [reflexivity |]. intros before.
    rewrite Habsent. cbn [bind fst snd initializer_section connector_section].
    reflexivity.
  - intros init_conts entries Hget Hiter. unfold run_string.
    apply bind_ext; [reflexivity |]. intros before.
    rewrite (getitem_contains _ _ _ Hget), Hget. cbn [bind]. rewrite Hiter. cbn [bind].
    rewrite sort_initializers_connectors_filter.
    destruct (mapM (fun entry => Py.getitem entry "type") entries); cbn [bind];
      [| reflexivity].
    cbn [fst snd app]. rewrite initializer_section_text, mapM_bullet.
    destruct (mapM (expand_initializer self) (filter is_initializer entries));
      cbn [bind]; [| reflexivity].
    rewrite connector_section_text, mapM_bullet.
    destruct (mapM (expand_connector self) (filter is_connector entries));
      cbn [bind]; [| reflexivity].
    now rewrite append_assoc.
  - apply is_initializer_type.
  - apply is_initializer_type.
  - intros entry text Hty. unfold is_connector, is_initializer. now rewrite Hty.
Qed.

End RunSections.

(** ** The components of a run *)

Lemma assoc_keys {A} (k : string) (items : list (string * A)) :
  (exists v, Py.assoc k items = Some v) <-> In k (map fst items).
Proof.
  induction items as [|[k' v'] items IH]; simpl.
  - split; [intros [v H]; discriminate | contradiction].
  - destruct (String.eqb_spec k k') as [->|Hne].
    + split; [now left | eauto].
    + rewrite IH. split; [now right | intros [H|H]; [congruence | exact H]].
Qed.

Lemma assoc_not_key {A} (k : string) (items : list (string * A)) :
  ~ In k (map fst items) -> Py.assoc k items = None.
Proof.
  intros H. destruct (Py.assoc k items) as [v|] eqn:Hk; [| reflexivity].
  exfalso. apply H. apply assoc_keys. eauto.
Qed.

Section Components.
Context {md : MarkdownStrings} {sympy : Sympy} {objects : Objects}.

Lemma nine_keys_func_map : nine_keys = map fst func_map.
Proof. reflexivity. Qed.

Lemma run_components_groups (self : Std_mdexpander) (bv : bool) (n : Z)
    (run_indx : nat) (run_dict : pyval) :
  run_components self bv n run_indx run_dict =
  (duration <- Py.getitem run_dict "duration" ;;
   components <- Py.getitem run_dict "components" ;;
   items <- Py.items components ;;
   groups <- mapM (expand_component self bv) items ;;
   Ok (run_start n run_indx duration ++ Str.cat groups)).
Proof.
  unfold run_components, run_start. cbv zeta. rewrite Z.gtb_ltb.
  do 3 (apply bind_ext; [reflexivity |]; intro).
  apply for_acc_mapM.
Qed.

Lemma expand_component_known (self : Std_mdexpander) (bv : bool) (k : string)
    (entry : handler) (members : list pyval) :
  Py.assoc k func_map = Some entry ->
  expand_component self bv (k, PList members) =
  (bullets <- mapM (bullet (entry_f entry) self) members ;;
   Ok (group_heading (if bv then entry_hb entry else entry_h entry) (length members) ++
       Str.cat bullets ++ Str.endl)).
Proof.
  intros Hk. unfold expand_component. cbn [fst snd]. rewrite Hk. cbv zeta.
  rewrite check_plural_list. cbn [bind Py.iter]. rewrite for_acc_mapM.
  destruct (mapM (bullet (entry_f entry) self) members) as [bullets|e]; cbn [bind];
    [| reflexivity].
  unfold group_heading, plural_s. f_equal. strings.
Qed.

Lemma expand_component_other (self : Std_mdexpander) (bv : bool) (k : string)
    (obj_list : pyval) :
  ~ In k nine_keys -> expand_component self bv (k, obj_list) = Ok Str.endl.
Proof.
  intros Hk. unfold expand_component. cbn [fst snd].
  rewrite nine_keys_func_map in Hk. rewrite (assoc_not_key _ _ Hk). reflexivity.
Qed.

(** C2, as the code has it.  The components of a run are gone through in
    the order of the dictionary and each entry adds its text to the run.  A
    key has a handler exactly when it is one of the nine keys.  For such a key
    a list of members gives a bold group heading, one ['- ']-prefixed
    expansion per member in list order, by the handler of the key, and a
    newline; the heading word is the ['hb'] entry when [brian_verbose] is
    true and the ['h'] entry otherwise.  Any other key raises nothing and
    adds only the newline that ends every entry.  The ['hb'] entries are the
    Brian class names, except ['Synapse'] for the key ['synapses']. *)
Theorem component_groups :
  forall (self : Std_mdexpander) (brian_verbose : bool),
    (forall n run_indx run_dict,
       run_components self brian_verbose n run_indx run_dict =
         (duration <- Py.getitem run_dict "duration" ;;
          components <- Py.getitem run_dict "components" ;;
          items <- Py.items components ;;
          groups <- mapM (expand_component self brian_verbose) items ;;
          Ok (run_start n run_indx duration ++ Str.cat groups))) /\
    (forall k, (exists entry, Py.assoc k func_map = Some entry) <-> In k nine_keys) /\
    (forall k entry members,
       Py.assoc k func_map = Some entry ->
       expand_component self brian_verbose (k, PList members) =
         (expansions <- mapM (entry_f entry self) members ;;
          Ok (bold (PStr ((if brian_verbose then entry_hb entry else entry_h entry) ++
                          (if (2 <=? length members)%nat then "s" else "") ++
                          " defined:")) ++ Str.endl ++
              Str.cat (map (fun expansion => "- " ++ expansion) expansions) ++
              Str.endl))) /\
    (forall k obj_list,
       ~ In k nine_keys ->
       expand_component self brian_verbose (k, obj_list) = Ok Str.endl) /\
    map (fun kv => (fst kv, (entry_hb (snd kv), entry_h (snd kv)))) func_map =
      [ ("neurongroup", ("NeuronGroup", "Neuron group"));
        ("poissongroup", ("PoissonGroup", "Poisson spike source"));
        ("spikegeneratorgroup", ("SpikeGeneratorGroup", "Spike generating source"));
        ("statemonitor", ("StateMonitor", "Activity recorder"));
        ("spikemonitor", ("SpikeMonitor", "Spiking activity recorder"));
        ("eventmonitor", ("EventMonitor", "Event activity recorder"));
        ("populationratemonitor", ("PopulationRateMonitor", "Population rate recorder"));
        ("synapses", ("Synapse", "Synapse"));
        ("poissoninput", ("PoissonInput", "Poisson input")) ] /\
    (forall d,
       map (fun kv => (fst kv, entry_f (snd kv) self d)) func_map =
         [ ("neurongroup", expand_NeuronGroup self d);
           ("poissongroup", expand_PoissonGroup self d);
           ("spikegeneratorgroup", expand_SpikeGeneratorGroup self d);
           ("statemonitor", expand_StateMonitor self d);
           ("spikemonitor", expand_SpikeMonitor self d);
           ("eventmonitor", expand_EventMonitor self d);
           ("populationratemonitor", expand_PopulationRateMonitor self d);
           ("synapses", expand_Synapses self d);
           ("poissoninput", expand_PoissonInput self d) ]).
Proof.
  intros self bv. split; [| split; [| split; [| split; [| split]]]].
  - intros. apply run_components_groups.
  - intros k. rewrite nine_keys_func_map. apply assoc_keys.
  - intros k entry members Hk. rewrite (expand_component_known _ _ _ _ _ Hk).
    rewrite mapM_bullet.
    destruct (mapM (entry_f entry self) members) as [expansions|e]; cbn [bind];
      [| reflexivity].
    unfold group_heading, plural_s. f_equal. strings.
  - intros. now apply expand_component_other.
  - reflexivity.
  - reflexivity.
Qed.

End Components.

(** ** The whole text *)

Lemma getrun_seq {B} (g : nat -> pyval -> result B) (net_dict : list pyval) :
  forall (k : nat) (get : nat -> result pyval),
    (forall j run_dict, nth_error net_dict j = Some run_dict ->
                        get (k + j)%nat = Ok run_dict) ->
    mapM (fun run_indx => run_dict <- get run_indx ;; g run_indx run_dict)
         (seq k (length net_dict)) =
    mapM (fun ir => g (fst ir) (snd ir)) (combine (seq k (length net_dict)) net_dict).
Proof.
  induction net_dict as [|run_dict net_dict IH]; intros k get Hget; [reflexivity |].
  cbn [length seq combine mapM fst snd].
  replace (get k) with (Ok run_dict)
    by (symmetry; rewrite <- (Nat.add_0_r k); now apply Hget).
  cbn [bind]. rewrite (IH (S k) get); [reflexivity |].
  intros j rd Hj. replace (S k + j)%nat with (k + S j)%nat by lia. now apply Hget.
Qed.

Section WholeText.
Context {md : MarkdownStrings} {sympy : Sympy} {objects : Objects}.

Lemma network_header_sentence (net_dict : list pyval) :
  network_header net_dict = Ok (network_sentence (Z.of_nat (length net_dict))).
Proof.
  unfold network_header, network_sentence. cbv zeta. rewrite check_plural_list.
  cbn [bind]. f_equal.
  destruct net_dict as [|x [|y rest]].
  - cbn [length Z.of_nat Z.gtb Z.leb Z.compare Nat.leb]. strings.
  - cbn [length Z.of_nat Z.gtb Z.leb Z.compare Nat.leb Pos.of_succ_nat Pos.compare
         Pos.compare_cont]. strings.
  - replace (Z.of_nat (length (x :: y :: rest)) >? 1) with true
      by (symmetry; rewrite Z.gtb_ltb; apply Z.ltb_lt; cbn [length]; lia).
    replace (Z.of_nat (length (x :: y :: rest)) <=? 1) with false
      by (symmetry; apply Z.leb_gt; cbn [length]; lia).
    cbn [length Nat.leb]. strings.
Qed.

(** What [create_md_string] returns: the network sentence, then the runs in
    the order of their index. *)
Lemma create_md_string_sections (self : Std_mdexpander) (net_dict : list pyval)
    (bv gm : bool) :
  fst (create_md_string self net_dict bv gm) =
  (sections <- mapM (fun ir => run_string (set_github_md self gm) bv
                                 (Z.of_nat (length net_dict)) (fst ir) (snd ir))
                    (combine (seq 0 (length net_dict)) net_dict) ;;
   Ok (network_sentence (Z.of_nat (length net_dict)) ++ Str.cat sections)).
Proof.
  unfold create_md_string. cbv zeta.
  rewrite network_header_sentence. cbn [bind]. rewrite for_acc_mapM.
  rewrite (getrun_seq (run_string (set_github_md self gm) bv (Z.of_nat (length net_dict)))
             net_dict 0 (getrun net_dict)).
  - destruct (mapM _ _); reflexivity.
  - intros j rd Hj. unfold getrun. cbn [Nat.add]. now rewrite Hj.
Qed.

Lemma inactive_section_extends (run_dict : pyval) (acc out : string) :
  inactive_section run_dict acc = Ok out -> exists rest, out = acc ++ rest.
Proof.
  unfold inactive_section. intros H.
  apply bind_Ok_inv in H as [[|] [_ H]].
  - cbv zeta in H.
    apply bind_Ok_inv in H as [inactive [_ H]].
    apply bind_Ok_inv in H as [plural [_ H]].
    apply bind_Ok_inv in H as [inactive' [_ H]].
    apply bind_Ok_inv in H as [items [_ H]].
    apply bind_Ok_inv in H as [names [_ H]].
    inversion H; subst. rewrite !append_assoc. eexists. reflexivity.
  - inversion H; subst. exists "". now rewrite append_nil_r.
Qed.

Lemma run_string_extends (self : Std_mdexpander) (bv : bool) (n : Z) (run_indx : nat)
    (run_dict : pyval) (section : string) :
  run_string self bv n run_indx run_dict = Ok section ->
  exists duration rest,
    Py.getitem run_dict "duration" = Ok duration /\
    section = run_start n run_indx duration ++ rest.
Proof.
  unfold run_string. intros H.
  apply bind_Ok_inv in H as [before [Hbefore H]].
  apply bind_Ok_inv in H as [has [_ H]].
  apply bind_Ok_inv in H as [sorted [_ H]].
  apply bind_Ok_inv in H as [acc1 [H1 H]].
  apply bind_Ok_inv in H as [acc2 [H2 H]].
  apply inactive_section_extends in H as [rest3 ->].
  rewrite initializer_section_text in H1. apply bind_Ok_inv in H1 as [b1 [_ H1]].
  rewrite connector_section_text in H2. apply bind_Ok_inv in H2 as [b2 [_ H2]].
  inversion H1; subst. inversion H2; subst.
  rewrite run_components_groups in Hbefore.
  apply bind_Ok_inv in Hbefore as [duration [Hduration Hbefore]].
  apply bind_Ok_inv in Hbefore as [components [_ Hbefore]].
  apply bind_Ok_inv in Hbefore as [items [_ Hbefore]].
  apply bind_Ok_inv in Hbefore as [groups [_ Hbefore]].
  inversion Hbefore; subst.
  exists duration. rewrite !append_assoc. eexists. split; [exact Hduration | reflexivity].
Qed.

(** C1.  The text of [create_md_string] is the network sentence followed by
    the sections of the runs in ascending run index.  The network sentence
    begins with the level-1 header 'Network details' and says 'consists' and
    'simulation run' exactly when there is at most one run, 'consist' and
    'simulation runs' when there are more.  Every run section begins with the
    level-3 header 'Run k details' (k counted from 1) exactly when there is
    more than one run, and then states the duration of the run in bold. *)
Theorem create_md_string_runs :
  forall (self : Std_mdexpander) (net_dict : list pyval) (brian_verbose github_md : bool),
    fst (create_md_string self net_dict brian_verbose github_md) =
      (sections <-
         mapM (fun ir => run_string (set_github_md self github_md) brian_verbose
                           (Z.of_nat (length net_dict)) (fst ir) (snd ir))
              (combine (seq 0 (length net_dict)) net_dict) ;;
       Ok (network_sentence (Z.of_nat (length net_dict)) ++ Str.cat sections)) /\
    (forall n,
       network_sentence n =
         header "Network details" 1 ++ Str.endl ++
         "The Network " ++ (if n <=? 1 then "consists" else "consist") ++ " of " ++
         bold (PInt n) ++ " " ++ Str.spaces 27 ++
         (if n <=? 1 then "simulation run" else "simulation runs") ++
         Str.endl ++ horizontal_rule ++ Str.endl) /\
    (forall self' n run_indx run_dict section,
       run_string self' brian_verbose n run_indx run_dict = Ok section ->
       exists duration rest,
         Py.getitem run_dict "duration" = Ok duration /\
         section =
           ((if 1 <? n
             then header ("Run " ++ Str.of_Z (Z.of_nat run_indx + 1) ++ " details") 3 ++
                  Str.endl
             else Str.endl) ++
            "Duration of simulation is " ++ bold (PStr (Py.str duration)) ++ Str.endll) ++
           rest).
Proof.
  intros self net_dict bv gm. split; [| split].
  - apply create_md_string_sections.
  - reflexivity.
  - intros self' n run_indx run_dict section H.
    apply run_string_extends in H. exact H.
Qed.

(** C3.  The text [create_md_string] returns (or the exception it raises)
    depends on its arguments alone: two objects in any state give the same,
    and so does an object after an earlier call with other arguments. *)
Theorem create_md_string_pure :
  forall (self1 self2 : Std_mdexpander) (net_dict : list pyval)
         (brian_verbose github_md : bool),
    fst (create_md_string self1 net_dict brian_verbose github_md) =
    fst (create_md_string self2 net_dict brian_verbose github_md) /\
    (forall net_dict0 brian_verbose0 github_md0,
       fst (create_md_string
              (snd (create_md_string self1 net_dict0 brian_verbose0 github_md0))
              net_dict brian_verbose github_md) =
       fst (create_md_string self1 net_dict brian_verbose github_md)).
Proof.
  assert (Hpure : forall s1 s2 nd bv gm,
            fst (create_md_string s1 nd bv gm) = fst (create_md_string s2 nd bv gm)).
  { intros s1 s2 nd bv gm. rewrite !create_md_string_sections.
    apply bind_ext; [| reflexivity]. apply mapM_ext. intros ir.
    apply run_string_same. reflexivity. }
  intros. split; [apply Hpure |]. intros. apply Hpure.
Qed.

End WholeText.

(** ** Splitting a statement at its operator *)

Lemma prefix_cons (a : ascii) (p : string) (c : ascii) (s : string) :
  String.prefix (String a p) (String c s) = (Ascii.eqb a c && String.prefix p s)%bool.
Proof.
  simpl. destruct (ascii_dec a c) as [->|Hne].
  - now rewrite Ascii.eqb_refl.
  - apply Ascii.eqb_neq in Hne. now rewrite Hne.
Qed.

Lemma prefix_nil (s : string) : String.prefix "" s = true.
Proof. destruct s; reflexivity. Qed.

Lemma split_assign_from_nonempty (skip : nat) (s : string) :
  Str.split_assign_from skip s <> [].
Proof.
  revert skip. induction s as [|c s IH]; intros skip; cbn [Str.split_assign_from];
    [discriminate |].
  destruct skip; [| apply IH].
  destruct (String.prefix "-=" (String c s)); [discriminate |].
  destruct (String.prefix "+=" (String c s)); [discriminate |].
  destruct (String.prefix "=" (String c s)); [discriminate |].
  destruct (Str.split_assign_from 0 s); simpl; discriminate.
Qed.

Lemma length_push (c : ascii) (pieces : list string) :
  pieces <> [] -> length (Str.push c pieces) = length pieces.
Proof. destruct pieces; [congruence | reflexivity]. Qed.

(** The three cases of a step of the split, by the first character. *)
Lemma split_assign_from_step (c : ascii) (s : string) :
  Str.split_assign_from 0 (String c s) =
    if ((Ascii.eqb c "-" || Ascii.eqb c "+") && String.prefix "=" s)%bool
    then "" :: Str.split_assign_from 1 s
    else if Ascii.eqb c "=" then "" :: Str.split_assign_from 0 s
    else Str.push c (Str.split_assign_from 0 s).
Proof.
  cbn [Str.split_assign_from].
  rewrite !prefix_cons, prefix_nil, Bool.andb_true_r.
  rewrite (Ascii.eqb_sym "-" c), (Ascii.eqb_sym "+" c), (Ascii.eqb_sym "=" c).
  destruct (Ascii.eqb c "-") eqn:Hm; cbn [orb andb].
  - destruct (String.prefix "=" s); [reflexivity |].
    apply Ascii.eqb_eq in Hm. subst c. reflexivity.
  - destruct (Ascii.eqb c "+") eqn:Hp; cbn [orb andb]; [| reflexivity].
    destruct (String.prefix "=" s); [reflexivity |].
    apply Ascii.eqb_eq in Hp. subst c. reflexivity.
Qed.

Lemma prefix_eq_inv (s : string) :
  String.prefix "=" s = true -> exists s', s = String "=" s'.
Proof.
  destruct s as [|c s]; [discriminate |]. rewrite prefix_cons, prefix_nil, Bool.andb_true_r.
  intros H. apply Ascii.eqb_eq in H. subst c. eauto.
Qed.

Lemma split_assign_parts_from (s : string) :
  length (Str.split_assign_from 0 s) = S (count_eq s) /\
  (forall c, length (Str.split_assign_from 0 (String c s)) = S (count_eq (String c s))).
Proof.
  induction s as [|c s [IH0 IH1]].
  - split; [reflexivity |]. intros c. rewrite split_assign_from_step.
    cbn [String.prefix andb count_eq]. rewrite Bool.andb_false_r.
    destruct (Ascii.eqb c "="); reflexivity.
  - split; [apply IH1 |]. intros d. rewrite split_assign_from_step.
    destruct ((Ascii.eqb d "-" || Ascii.eqb d "+") && String.prefix "=" (String c s))%bool
      eqn:Hop.
    + apply Bool.andb_true_iff in Hop as [Hd Hc].
      apply prefix_eq_inv in Hc as [s' Hc]. inversion Hc; subst.
      cbn [Str.split_assign_from length]. rewrite IH0.
      assert (Hd' : Ascii.eqb d "=" = false).
      { apply Bool.orb_true_iff in Hd as [Hd|Hd]; apply Ascii.eqb_eq in Hd; subst d;
          reflexivity. }
      cbn [count_eq]. rewrite Hd'. reflexivity.
    + destruct (Ascii.eqb d "=") eqn:Hd.
      * cbn [length]. rewrite IH1. cbn [count_eq]. rewrite Hd. reflexivity.
      * rewrite length_push by apply split_assign_from_nonempty.
        rewrite IH1. cbn [count_eq]. rewrite Hd. reflexivity.
Qed.

Lemma split_assign_parts (s : string) :
  length (Str.split_assign s) = S (count_eq s).
Proof. apply split_assign_parts_from. Qed.

Lemma contains_cons (pat : string) (c : ascii) (s : string) :
  Str.contains pat (String c s) = (String.prefix pat (String c s) || Str.contains pat s)%bool.
Proof. reflexivity. Qed.

Lemma contains_eq_count (s : string) :
  Str.contains "=" s = negb (Nat.eqb (count_eq s) 0).
Proof.
  induction s as [|c s IH]; [reflexivity |].
  rewrite contains_cons, prefix_cons, prefix_nil, Bool.andb_true_r, IH.
  cbn [count_eq]. rewrite (Ascii.eqb_sym "=" c).
  destruct (Ascii.eqb c "="); [reflexivity |]. reflexivity.
Qed.

Lemma contains_operator_count (a : ascii) (s : string) :
  count_eq s = O -> Str.contains (String a "=") s = false.
Proof.
  induction s as [|c s IH]; [reflexivity |].
  cbn [count_eq]. intros H.
  assert (Hs : count_eq s = O) by lia.
  rewrite contains_cons, prefix_cons, (IH Hs), Bool.orb_false_r.
  destruct s as [|d s]; [cbn; apply Bool.andb_false_r |].
  rewrite prefix_cons, prefix_nil, Bool.andb_true_r.
  cbn [count_eq] in Hs. rewrite (Ascii.eqb_sym "=" d).
  destruct (Ascii.eqb d "="); [lia | apply Bool.andb_false_r].
Qed.

Lemma has_assignment_count (s : string) :
  has_assignment s = negb (Nat.eqb (count_eq s) 0).
Proof.
  unfold has_assignment. rewrite contains_eq_count.
  destruct (count_eq s) as [|n] eqn:Hn; cbn [Nat.eqb negb].
  - now rewrite !contains_operator_count.
  - now rewrite Bool.orb_true_r.
Qed.

Lemma split_assign_from_whole (s : string) :
  count_eq s = O -> Str.split_assign_from 0 s = [s].
Proof.
  induction s as [|c s IH]; [reflexivity |].
  cbn [count_eq]. intros H. rewrite split_assign_from_step.
  destruct (Ascii.eqb c "=") eqn:Hc; [simpl in H; lia |].
  assert (Hs : count_eq s = O) by (simpl in H; lia).
  replace (String.prefix "=" s) with false.
  - rewrite Bool.andb_false_r, (IH Hs). reflexivity.
  - destruct s as [|d s]; [reflexivity |].
    rewrite prefix_cons, prefix_nil, Bool.andb_true_r, (Ascii.eqb_sym "=" d).
    cbn [count_eq] in Hs. destruct (Ascii.eqb d "="); [lia | reflexivity].
Qed.

Lemma split_assign_from_single (s r : string) :
  Str.split_assign_from 0 s = [r] -> r = s /\ count_eq s = O.
Proof.
  intros H. pose proof (proj1 (split_assign_parts_from s)) as Hlen.
  rewrite H in Hlen. cbn [length] in Hlen.
  assert (Hs : count_eq s = O) by lia.
  rewrite (split_assign_from_whole _ Hs) in H. inversion H; subst. auto.
Qed.

Lemma split_assign_from_two (st lhs rhs : string) :
  Str.split_assign_from 0 st = [lhs; rhs] ->
  st = lhs ++ source_operator st ++ rhs /\ count_eq lhs = O /\ count_eq rhs = O.
Proof.
  revert lhs. induction st as [|c s IH]; intros lhs H; [discriminate |].
  rewrite split_assign_from_step in H. unfold source_operator.
  rewrite !contains_cons, !prefix_cons.
  destruct ((Ascii.eqb c "-" || Ascii.eqb c "+") && String.prefix "=" s)%bool eqn:Hop.
  - apply Bool.andb_true_iff in Hop as [Hc Hs].
    apply prefix_eq_inv in Hs as [s' ->].
    cbn [Str.split_assign_from] in H. inversion H; subst lhs.
    match goal with Hr : Str.split_assign_from 0 s' = [rhs] |- _ =>
      apply split_assign_from_single in Hr as [-> Hcount] end.
    rewrite !contains_cons, !prefix_cons, !prefix_nil, !Bool.andb_true_r.
    rewrite !contains_operator_count by exact Hcount.
    apply Bool.orb_true_iff in Hc as [Hc|Hc]; apply Ascii.eqb_eq in Hc; subst c;
      cbn; auto.
  - destruct (Ascii.eqb c "=") eqn:Hc.
    + apply Ascii.eqb_eq in Hc. subst c. inversion H; subst lhs.
      match goal with Hr : Str.split_assign_from 0 s = [rhs] |- _ =>
        apply split_assign_from_single in Hr as [-> Hcount] end.
      rewrite !contains_operator_count by exact Hcount. cbn. auto.
    + destruct (Str.split_assign_from 0 s) as [|l [|r [|x rest]]] eqn:Hs;
        cbn [Str.push] in H; try discriminate.
      inversion H; subst lhs r.
      destruct (IH l eq_refl) as [Hst [Hl Hr]].
      assert (Hplus : (Ascii.eqb "+" c && String.prefix "=" s)%bool = false).
      { rewrite (Ascii.eqb_sym "+" c).
        destruct (Ascii.eqb c "+"); [| reflexivity].
        rewrite Bool.orb_true_r in Hop. exact Hop. }
      assert (Hminus : (Ascii.eqb "-" c && String.prefix "=" s)%bool = false).
      { rewrite (Ascii.eqb_sym "-" c).
        destruct (Ascii.eqb c "-"); [| reflexivity]. exact Hop. }
      rewrite Hplus, Hminus. cbn [orb].
      split; [| split; [cbn [count_eq]; rewrite Hc; exact Hl | exact Hr]].
      cbn [String.append]. f_equal. exact Hst.
Qed.

Section StatementOperators.
Context {sympy : Sympy} {objects : Objects}.

(** X1.  The split of a statement at ['-='], ['+='] and ['='] has one part
    more than the statement has ['='] characters.  The test for an assignment
    operator succeeds exactly when there is one at least; with two or more
    (a comparison ['=='], a chained assignment) the unpacking into a left and
    a right side fails: the statement, and a text that begins with it, raise
    [ValueError] when the sides are to be separated, whatever the renderer
    does. *)
Theorem split_assign_parts_count :
  forall (self : Std_mdexpander) (differential : bool) (equals statement : string),
    length (Str.split_assign statement) = S (count_eq statement) /\
    (has_assignment statement = true <-> (1 <= count_eq statement)%nat) /\
    ((2 <= count_eq statement)%nat ->
     prepare_statement self differential true equals statement = Raise ValueError /\
     forall statements rest,
       Str.split_lines statements = statement :: rest ->
       prepare_math_statements self (PStr statements) differential true equals =
         Raise ValueError).
Proof.
  intros self d equals st. split; [apply split_assign_parts | split].
  - rewrite has_assignment_count. destruct (count_eq st); cbn; split; try lia;
      try discriminate; auto.
  - intros Hcount.
    assert (Hbody : prepare_statement self d true equals st = Raise ValueError).
    { unfold prepare_statement.
      fold (has_assignment st). rewrite has_assignment_count.
      pose proof (split_assign_parts st) as Hlen.
      destruct (count_eq st) as [|[|n]]; try lia. cbn [Nat.eqb negb].
      destruct (Str.split_assign st) as [|l [|r [|x rest]]]; cbn [length] in Hlen;
        try lia; reflexivity. }
    split; [exact Hbody |].
    intros statements rest Hsplit. unfold prepare_math_statements.
    cbn [Py.as_str bind]. rewrite Hsplit. cbn [for_acc]. rewrite Hbody. reflexivity.
Qed.

(** X2.  A statement that splits into a left and a right side is that left
    side, the operator it is written with and that right side: the split
    loses nothing, neither side holds an ['='], and the operator put between
    the rendered sides is the written one, with [equals] in place of a plain
    ['=']. *)
Theorem split_assign_round_trip :
  forall (statement lhs rhs : string),
    Str.split_assign statement = [lhs; rhs] ->
    statement = lhs ++ source_operator statement ++ rhs /\
    count_eq lhs = O /\ count_eq rhs = O /\
    (forall equals,
       assignment_operator equals statement =
         if String.eqb (source_operator statement) "=" then equals
         else source_operator statement).
Proof.
  intros st lhs rhs H. destruct (split_assign_from_two _ _ _ H) as [Hst [Hl Hr]].
  repeat split; try assumption.
  intros equals. unfold assignment_operator, source_operator.
  destruct (Str.contains "+=" st); [reflexivity |].
  destruct (Str.contains "-=" st); reflexivity.
Qed.

End StatementOperators.

(** ** Statements without an operator, and the list of identifiers *)

Lemma split_lines_length (s : string) :
  length (Str.split_lines s) = S (count_separators s).
Proof.
  induction s as [|c s IH]; [reflexivity |]. cbn [Str.split_lines count_separators].
  rewrite is_line_separator_chars.
  destruct (Ascii.eqb c ";" || Ascii.eqb c "010")%bool.
  - cbn [length]. now rewrite IH.
  - rewrite length_push by apply split_lines_nonempty. now rewrite IH.
Qed.

Lemma split_lines_count_eq (s : string) :
  count_eq s = O -> Forall (fun piece => count_eq piece = O) (Str.split_lines s).
Proof.
  induction s as [|c s IH]; [repeat constructor |].
  cbn [count_eq Str.split_lines]. intros H.
  assert (Hc : Ascii.eqb c "=" = false) by (destruct (Ascii.eqb c "="); [simpl in H; lia | reflexivity]).
  rewrite Hc in H. specialize (IH H).
  destruct (Str.is_line_separator c); [constructor; [reflexivity | exact IH] |].
  destruct (Str.split_lines s) as [|p ps]; cbn [Str.push].
  - repeat constructor. cbn [count_eq]. now rewrite Hc.
  - inversion IH; subst. constructor; [cbn [count_eq]; now rewrite Hc | assumption].
Qed.

Lemma join_empty_texts {A} (sep : string) (xs : list A) :
  Str.join sep (map (fun _ => "") xs) = Str.cat (repeat sep (length xs - 1)).
Proof.
  induction xs as [|x xs IH]; [reflexivity |].
  destruct xs as [|y xs]; [reflexivity |].
  cbn [map]. rewrite join_cons by discriminate. cbn [map] in IH. rewrite IH.
  cbn [length Nat.sub String.append]. rewrite Nat.sub_0_r. reflexivity.
Qed.

Lemma mapM_Forall {A B} (g : A -> result B) (P : B -> Prop) (xs : list A) (ys : list B) :
  (forall x y, g x = Ok y -> P y) -> mapM g xs = Ok ys -> Forall P ys.
Proof.
  intros Hg. revert ys. induction xs as [|x xs IH]; cbn [mapM]; intros ys H.
  - inversion H. constructor.
  - apply bind_Ok_inv in H as [y [Hy H]]. apply bind_Ok_inv in H as [ys' [Hys H]].
    inversion H; subst. constructor; eauto.
Qed.

(** Texts that all end with [sep] are their stems with [sep] appended. *)
Lemma cat_stems (sep : string) (ts : list string) :
  Forall (fun t => exists u, t = u ++ sep) ts ->
  ts = map (fun u => u ++ sep) (map (Str.upto_last (String.length sep)) ts).
Proof.
  induction 1 as [|t ts [u ->] _ IH]; [reflexivity |].
  cbn [map]. rewrite upto_last_append. f_equal. exact IH.
Qed.

Lemma upto_last_comma (a : string) : Str.upto_last 2 (a ++ ", ") = a.
Proof. exact (upto_last_append a ", "). Qed.

Section Identifiers.
Context {md : MarkdownStrings} {sympy : Sympy} {objects : Objects}.

Lemma piece_texts_without_assignment (self : Std_mdexpander) (d : bool)
    (equals : string) (pieces : list string) :
  Forall (fun piece => count_eq piece = O) pieces ->
  mapM (piece_text self d true equals) pieces = Ok (map (fun _ => "") pieces).
Proof.
  induction 1 as [|piece pieces Hpiece _ IH]; [reflexivity |].
  cbn [mapM map]. unfold piece_text at 1.
  rewrite has_assignment_count, Hpiece. cbn [Nat.eqb negb bind].
  rewrite IH. reflexivity.
Qed.

(** X3.  When the sides are to be separated, a text without any ['=']
    gives no mathematics at all: the renderer is not called (so the call
    returns even before [github_md] is set) and the result is one [', '] for
    every [';'] and newline of the text. *)
Theorem statements_without_assignment :
  forall (self : Std_mdexpander) (statements : string) (differential : bool)
         (equals : string),
    count_eq statements = O ->
    prepare_math_statements self (PStr statements) differential true equals =
      Ok (Str.cat (repeat ", " (count_separators statements))).
Proof.
  intros self s d equals Hs. rewrite prepare_math_statements_join.
  rewrite (piece_texts_without_assignment self d equals _ (split_lines_count_eq s Hs)).
  cbn [bind]. rewrite join_empty_texts, split_lines_length.
  cbn [Nat.sub]. now rewrite Nat.sub_0_r.
Qed.

Lemma expand_identifier_ends (self : Std_mdexpander) (k : string) (v : pyval)
    (t : string) :
  expand_identifier self k v = Ok t -> exists u, t = u ++ ", ".
Proof.
  unfold expand_identifier. intros H.
  apply bind_Ok_inv in H as [u [_ H]]. inversion H. eauto.
Qed.

(** X4.  [expand_identifiers] writes a tab, the texts of the identifiers in
    the order of the dictionary joined by [', '] (each text is what
    [expand_identifier] gives without its closing [', ']) and a blank line;
    for an empty dictionary the tab and the blank line alone; a value that is
    not a dictionary raises [AttributeError]. *)
Theorem expand_identifiers_joined :
  forall (self : Std_mdexpander),
    (forall items,
       expand_identifiers self (PDict items) =
         (texts <- mapM (fun kv => expand_identifier self (fst kv) (snd kv)) items ;;
          Ok (Str.tab ++ Str.join ", " (map (Str.upto_last 2) texts) ++ Str.endll))) /\
    expand_identifiers self (PDict []) = Ok (Str.tab ++ Str.endll) /\
    (forall identifiers,
       Py.is_dict identifiers = false ->
       expand_identifiers self identifiers = Raise (AttributeError "items")).
Proof.
  intros self. split; [| split].
  - intros items. unfold expand_identifiers. cbn [Py.items bind].
    rewrite for_acc_mapM.
    destruct (mapM (fun kv => expand_identifier self (fst kv) (snd kv)) items)
      as [texts|e] eqn:Htexts; cbn [bind]; [| reflexivity].
    assert (Hends : Forall (fun t => exists u, t = u ++ ", ") texts).
    { apply (mapM_Forall (fun kv => expand_identifier self (fst kv) (snd kv)) _
               items texts); [| exact Htexts].
      intros kv t Ht. exact (expand_identifier_ends self (fst kv) (snd kv) t Ht). }
    apply (cat_stems ", ") in Hends. cbn [String.length] in Hends.
    destruct texts as [|t ts]; [reflexivity |].
    rewrite Hends at 1. rewrite cat_sep_join by discriminate.
    cbn [String.append]. now rewrite upto_last_comma.
  - reflexivity.
  - intros v Hv. destruct v; try reflexivity. discriminate.
Qed.

End Identifiers.

(** ** Keys that are read, keys that are not *)

Lemma check_plural_none (v : pyval) (items : list pyval) (ac : bool) :
  Py.iter v = Ok items -> check_plural v None ac = Ok (plural_s (length items)).
Proof.
  intros H. rewrite (check_plural_iterable _ _ None ac H).
  destruct items as [|x [|y rest]]; reflexivity.
Qed.

Section KeysRead.
Context {md : MarkdownStrings} {sympy : Sympy} {objects : Objects}.

(** X5.  For an ['index'] that is a string or a boolean, [expand_initializer]
    writes [' on condition '] and the string, unless the string is ['True']
    or ['False']; [' to all members'] for the boolean [True] and for both of
    these strings (the string ['False'] is a true value); [' to no member']
    for the boolean [False] only. *)
Theorem expand_initializer_condition :
  forall (self : Std_mdexpander) (initializer index : pyval),
    Py.getitem initializer "index" = Ok index ->
    Py.isinstance_str index = true \/ Py.isinstance_bool index = true ->
    expand_initializer self initializer =
      (variable <- Py.getitem initializer "variable" ;;
       variable_r <- render_expression self variable false ;;
       source <- Py.getitem initializer "source" ;;
       source <- Py.as_str source ;;
       value <- Py.getitem initializer "value" ;;
       value_r <- render_expression self value false ;;
       identifiers <- associated_identifiers self initializer ;;
       Ok ("Variable " ++ variable_r ++ " of " ++ source ++ " initialized with " ++
           value_r ++ index_words index ++ identifiers ++ Str.endll)) /\
    (index_words index = " to no member" <-> index = PBool false) /\
    index_words (PStr "False") = " to all members".
Proof.
  intros self initializer index Hindex Hkind. split; [| split; [| reflexivity]].
  - unfold expand_initializer, associated_identifiers.
    do 6 (apply bind_ext; [reflexivity |]; intro).
    rewrite Hindex. cbn [bind].
    assert (Hclause : forall init_str (k : string -> result string),
      (init_str' <-
         (if is_condition index
          then condition <- Py.as_str index ;; Ok (init_str ++ " on condition " ++ condition)
          else
            boolean <- is_boolean index ;;
            if boolean
            then t <- Py.truth index ;;
                 all <- (if t then Ok true else Py.eq_str index "True") ;;
                 if all
                 then Ok (init_str ++ " to all members")
                 else Ok (init_str ++ " to no member")
            else
              plural <- check_plural index None true ;;
              (if negb (Py.hasattr index "__iter___")
               then Ok ((init_str ++ " to member" ++ plural ++ " ") ++ Py.str index)
               else joined <- join_strs "," index ;;
                    Ok ((init_str ++ " to member" ++ plural ++ " ") ++ joined))) ;;
       k init_str') = k (init_str ++ index_words index)).
    { intros init_str k.
      destruct index as [| [|] | | | s | | | | | s]; try (destruct Hkind; discriminate);
        try reflexivity;
        unfold is_condition, is_boolean;
        cbn [Py.text_of Py.isinstance_bool Py.eq_str Py.as_str Py.truth index_words bind];
        (destruct (String.eqb s "True") eqn:HT; cbn [negb andb orb bind];
         [ apply String.eqb_eq in HT; subst s; reflexivity
         | destruct (String.eqb s "False") eqn:HF; cbn [negb andb orb bind];
           [ apply String.eqb_eq in HF; subst s; reflexivity | reflexivity ] ]). }
    cbv zeta. rewrite Hclause.
    destruct (Py.contains "identifiers" initializer) as [[|]|e]; cbn [bind];
      try reflexivity.
    + destruct (Py.getitem initializer "identifiers") as [ids|e]; cbn [bind];
        [| reflexivity].
      destruct (check_plural ids None true) as [p|e]; cbn [bind]; [| reflexivity].
      destruct (expand_identifiers self ids) as [t|e]; cbn [bind]; [| reflexivity].
      f_equal. strings.
    + f_equal. strings.
  - destruct index as [| [|] | | | s | | | | | s]; try (destruct Hkind; discriminate);
      cbn [index_words]; try (split; [discriminate | intros H; inversion H]).
    + split; reflexivity.
    + destruct (String.eqb s "True" || String.eqb s "False")%bool;
        split; try discriminate.
    + destruct (String.eqb s "True" || String.eqb s "False")%bool;
        split; try discriminate.
Qed.

(** A dictionary read through [getitem] and [contains] at a key where it
    agrees with another gives the same. *)
Lemma getitem_agree (items1 items2 : list (string * pyval)) (k : string) :
  Py.assoc k items1 = Py.assoc k items2 ->
  Py.getitem (PDict items1) k = Py.getitem (PDict items2) k.
Proof. intros H. cbn [Py.getitem]. now rewrite H. Qed.

Lemma contains_agree (items1 items2 : list (string * pyval)) (k : string) :
  Py.assoc k items1 = Py.assoc k items2 ->
  Py.contains k (PDict items1) = Py.contains k (PDict items2).
Proof. intros H. cbn [Py.contains]. now rewrite H. Qed.

(** X6.  A connector with an ['i'] or a ['j'] never reads its ['condition']:
    two connector dictionaries that differ at the key ['condition'] only
    expand to the same text (and raise the same). *)
Theorem expand_connector_ignores_condition :
  forall (self : Std_mdexpander) (items1 items2 : list (string * pyval)),
    (forall k, k <> "condition" -> Py.assoc k items1 = Py.assoc k items2) ->
    Py.assoc "i" items1 <> None \/ Py.assoc "j" items1 <> None ->
    expand_connector self (PDict items1) = expand_connector self (PDict items2).
Proof.
  intros self items1 items2 Hagree Hij.
  assert (Hg : forall k, k <> "condition" ->
            Py.getitem (PDict items1) k = Py.getitem (PDict items2) k)
    by (intros; apply getitem_agree; auto).
  assert (Hc : forall k, k <> "condition" ->
            Py.contains k (PDict items1) = Py.contains k (PDict items2))
    by (intros; apply contains_agree; auto).
  unfold expand_connector.
  rewrite (Hg "source"), (Hg "target"), (Hc "i"), (Hg "i"), (Hc "j"), (Hg "j"),
    (Hg "probability"), (Hg "n_connections"), (Hc "identifiers"), (Hg "identifiers")
    by discriminate.
  do 4 (apply bind_ext; [reflexivity |]; intro).
  rewrite (Hagree "i"), (Hagree "j") in Hij by discriminate.
  cbn [Py.contains].
  destruct (Py.assoc "i" items2) as [i|] eqn:Hi; cbn [bind]; [reflexivity |].
  apply bind_ext; [| reflexivity].
  destruct (Py.assoc "j" items2) as [j|] eqn:Hj; cbn [bind]; [reflexivity |].
  destruct Hij; congruence.
Qed.

(** X7.  A synapse without ['equations'] never reads its ['user_method']:
    the integration method is written under the dynamics only. *)
Theorem expand_Synapses_ignores_method :
  forall (self : Std_mdexpander) (items1 items2 : list (string * pyval)),
    (forall k, k <> "user_method" -> Py.assoc k items1 = Py.assoc k items2) ->
    Py.assoc "equations" items1 = None ->
    expand_Synapses self (PDict items1) = expand_Synapses self (PDict items2).
Proof.
  intros self items1 items2 Hagree Heq.
  assert (Hg : forall k, k <> "user_method" ->
            Py.getitem (PDict items1) k = Py.getitem (PDict items2) k)
    by (intros; apply getitem_agree; auto).
  assert (Hc : forall k, k <> "user_method" ->
            Py.contains k (PDict items1) = Py.contains k (PDict items2))
    by (intros; apply contains_agree; auto).
  unfold expand_Synapses, constants_block.
  rewrite (Hg "source"), (Hg "target"), (Hc "equations"), (Hg "equations"),
    (Hc "pathways"), (Hg "pathways"), (Hc "summed_variables"),
    (Hg "summed_variables"), (Hc "identifiers"), (Hg "identifiers") by discriminate.
  do 4 (apply bind_ext; [reflexivity |]; intro).
  rewrite (Hagree "equations") in Heq by discriminate.
  cbn [Py.contains]. rewrite Heq. cbn [bind]. reflexivity.
Qed.

(** X8.  [expand_SpikeGeneratorGroup] reads ['period'] without asking for
    it: a dictionary with a name, a size, indices and times that can be gone
    through, but without the key ['period'], raises [KeyError]. *)
Theorem expand_SpikeGeneratorGroup_period :
  forall (self : Std_mdexpander) (items : list (string * pyval))
         (name N indices times : pyval) (neurons spikes : list pyval),
    Py.assoc "name" items = Some name ->
    Py.assoc "N" items = Some N ->
    Py.assoc "indices" items = Some indices ->
    Py.iter indices = Ok neurons ->
    Py.assoc "times" items = Some times ->
    Py.iter times = Ok spikes ->
    Py.assoc "period" items = None ->
    expand_SpikeGeneratorGroup self (PDict items) = Raise (KeyError "period").
Proof.
  intros self items name N indices times neurons spikes
    Hname HN Hindices Hneurons Htimes Hspikes Hperiod.
  unfold expand_SpikeGeneratorGroup, join_strs. cbn [Py.getitem].
  rewrite Hname, HN, Hindices, Htimes, Hperiod. cbn [bind].
  rewrite (check_plural_none _ _ true Hneurons). cbn [bind].
  rewrite Hneurons, Hspikes. reflexivity.
Qed.

End KeysRead.

(** ** Rendering and the attributes of the object *)

Lemma replace_absent (old new s : string) :
  Str.contains old s = false -> Str.replace old new s = s.
Proof.
  unfold Str.replace. induction s as [|c s IH]; [reflexivity |].
  rewrite contains_cons. intros H. apply Bool.orb_false_iff in H as [Hp Hs].
  cbn [Str.replace_from]. rewrite Hp, (IH Hs). reflexivity.
Qed.

Lemma substring_whole (s : string) : String.substring 0 (String.length s) s = s.
Proof. induction s as [|c s IH]; [reflexivity |]. simpl. now rewrite IH. Qed.

Lemma substring_skip (a b : string) :
  String.substring (String.length a) (String.length b) (a ++ b) = b.
Proof.
  induction a as [|c a IH]; [apply substring_whole |]. simpl. exact IH.
Qed.

(** [(a + b)[len(a):]] is [b]. *)
Lemma from_append (a b : string) : Str.from (String.length a) (a ++ b) = b.
Proof.
  unfold Str.from. rewrite length_append.
  replace (String.length a + String.length b - String.length a)%nat
    with (String.length b) by lia.
  apply substring_skip.
Qed.

Section Rendering.
Context {md : MarkdownStrings} {sympy : Sympy} {objects : Objects}.

Lemma render_expression_unset (self : Std_mdexpander) :
  github_md self = None ->
  forall e d out, render_expression self e d <> Ok out.
Proof.
  intros Hnone e d out H. unfold render_expression in H.
  apply bind_Ok_inv in H as [x [_ H]]. apply bind_Ok_inv in H as [y [_ H]].
  cbv zeta in H. unfold get_github_md in H. rewrite Hnone in H. discriminate.
Qed.

(** X9.  On an object whose [github_md] was never assigned (no call of
    [create_md_string] yet) nothing that renders an expression returns:
    [render_expression] and the expand functions that always render raise
    (an [AttributeError], unless a lookup or the parser raises first). *)
Theorem render_needs_github_md :
  forall (self : Std_mdexpander),
    github_md self = None ->
    (forall e d out, render_expression self e d <> Ok out) /\
    (forall k v out, expand_identifier self k v <> Ok out) /\
    (forall k d out, expand_equation self k d <> Ok out) /\
    (forall k d out, expand_event self k d <> Ok out) /\
    (forall d out, expand_initializer self d <> Ok out) /\
    (forall d out, expand_runregularly self d <> Ok out) /\
    (forall d out, expand_PoissonGroup self d <> Ok out) /\
    (forall d out, expand_PoissonInput self d <> Ok out) /\
    (forall d out, expand_summed_variable self d <> Ok out) /\
    (forall e,
       Py.isinstance_Quantity e = true ->
       render_expression self e false = Raise (AttributeError "github_md")).
Proof.
  intros self Hnone.
  pose proof (render_expression_unset self Hnone) as Hrender.
  repeat split; try exact Hrender.
  - intros k v out H. unfold expand_identifier in H.
    apply bind_Ok_inv in H as [x [H _]].
    destruct (negb (Py.is_dict v)); apply bind_Ok_inv in H as [y [H _]];
      exact (Hrender _ _ _ H).
  - intros k d out H. unfold expand_equation in H.
    apply bind_Ok_inv in H as [ty [_ H]].
    apply bind_Ok_inv in H as [differential [_ H]].
    apply bind_Ok_inv in H as [x [H _]].
    destruct differential; [exact (Hrender _ _ _ H) |].
    apply bind_Ok_inv in H as [ty' [_ H]].
    apply bind_Ok_inv in H as [subexpression [_ H]].
    destruct subexpression; [exact (Hrender _ _ _ H) |].
    apply bind_Ok_inv in H as [y [H _]]. exact (Hrender _ _ _ H).
  - intros k d out H. unfold expand_event in H. cbv zeta in H.
    apply bind_Ok_inv in H as [th [_ H]]. apply bind_Ok_inv in H as [code [_ H]].
    apply bind_Ok_inv in H as [x [H _]]. exact (Hrender _ _ _ H).
  - intros d out H. unfold expand_initializer in H.
    apply bind_Ok_inv in H as [v [_ H]]. apply bind_Ok_inv in H as [x [H _]].
    exact (Hrender _ _ _ H).
  - intros d out H. unfold expand_runregularly in H.
    apply bind_Ok_inv in H as [v [_ H]]. apply bind_Ok_inv in H as [x [H _]].
    exact (Hrender _ _ _ H).
  - intros d out H. unfold expand_PoissonGroup in H.
    apply bind_Ok_inv in H as [name [_ H]]. apply bind_Ok_inv in H as [N [_ H]].
    apply bind_Ok_inv in H as [rates [_ H]]. apply bind_Ok_inv in H as [x [H _]].
    exact (Hrender _ _ _ H).
  - intros d out H. unfold expand_PoissonInput in H.
    apply bind_Ok_inv in H as [N [_ H]]. apply bind_Ok_inv in H as [tv [_ H]].
    apply bind_Ok_inv in H as [x [H _]]. exact (Hrender _ _ _ H).
  - intros d out H. unfold expand_summed_variable in H.
    apply bind_Ok_inv in H as [t [_ H]]. apply bind_Ok_inv in H as [ts [_ H]].
    apply bind_Ok_inv in H as [code [_ H]]. apply bind_Ok_inv in H as [x [H _]].
    exact (Hrender _ _ _ H).
  - intros e He. unfold render_expression. rewrite He. cbn [bind]. cbv zeta.
    unfold get_github_md. rewrite Hnone. reflexivity.
Qed.

(** X10.  When the printer answers an expression between double dollars and
    the text holds neither ['_placeholder_{arg}'] nor ['\operatorname'],
    [render_expression] gives the expression between single dollars, and with
    [github_md] the bare expression inside the image link. *)
Theorem render_expression_dollars :
  forall (self : Std_mdexpander) (expression : pyval) (parsed : expr) (body : string),
    Py.isinstance_Quantity expression = false ->
    str_to_sympy (Py.str expression) = Ok parsed ->
    latex (inr parsed) = "$$" ++ body ++ "$$" ->
    Str.contains "_placeholder_{arg}" ("$$" ++ body ++ "$$") = false ->
    Str.contains "\operatorname" ("$$" ++ body ++ "$$") = false ->
    (github_md self = Some false ->
     render_expression self expression false = Ok ("$" ++ body ++ "$")) /\
    (github_md self = Some true ->
     render_expression self expression false =
       Ok ("<img src=" ++ Str.dquote ++
           "https://render.githubusercontent.com/render/math?math=" ++
           body ++ Str.dquote ++ ">")).
Proof.
  intros self expression parsed body Hq Hparse Hlatex Hph Hop.
  assert (Htext : match expression with PStr s => s | _ => Py.str expression end =
                  Py.str expression) by (destruct expression; reflexivity).
  assert (Hfrom2 : Str.from 2 ("$$" ++ body ++ "$$") = body ++ "$$")
    by exact (from_append "$$" (body ++ "$$")).
  assert (Hupto2 : Str.upto_last 2 (body ++ "$$") = body)
    by exact (upto_last_append body "$$").
  assert (Hfrom1 : Str.from 1 ("$$" ++ body ++ "$$") = "$" ++ body ++ "$$")
    by exact (from_append "$" ("$" ++ body ++ "$$")).
  assert (Hupto1 : Str.upto_last 1 ("$" ++ body ++ "$$") = "$" ++ body ++ "$").
  { replace ("$" ++ body ++ "$$") with (("$" ++ body ++ "$") ++ "$")
      by (cbn [String.append]; now rewrite append_assoc).
    exact (upto_last_append ("$" ++ body ++ "$") "$"). }
  split; intros Hg; unfold render_expression; rewrite Hq; cbv zeta;
    rewrite Htext, Hparse; cbn [bind]; rewrite Hlatex;
    rewrite (replace_absent _ _ _ Hph), (replace_absent _ _ _ Hop);
    unfold get_github_md; rewrite Hg; cbn [bind].
  - now rewrite Hfrom1, Hupto1.
  - now rewrite Hfrom2, Hupto2.
Qed.


End Rendering.

(** ** Runs that cannot be written, and the inactive members *)

Lemma mapM_Ok_In {A B} (g : A -> result B) (xs : list A) (ys : list B) (x : A) :
  mapM g xs = Ok ys -> In x xs -> exists y, g x = Ok y.
Proof.
  revert ys. induction xs as [|x' xs IH]; cbn [mapM In]; intros ys H Hin; [contradiction |].
  apply bind_Ok_inv in H as [y [Hy H]]. apply bind_Ok_inv in H as [ys' [Hys _]].
  destruct Hin as [->|Hin]; eauto.
Qed.

Lemma in_combine_seq {A} (x : A) (l : list A) :
  In x l -> forall k, exists i, In (i, x) (combine (seq k (length l)) l).
Proof.
  induction l as [|y l IH]; cbn [In]; intros Hin k; [contradiction |].
  cbn [length seq combine In]. destruct Hin as [->|Hin].
  - exists k. now left.
  - destruct (IH Hin (S k)) as [i Hi]. exists i. now right.
Qed.

Lemma mapM_as_str_not_str (items : list pyval) :
  Exists (fun v => Py.isinstance_str v = false) items ->
  mapM Py.as_str items = Raise TypeError.
Proof.
  induction 1 as [v items Hv | v items _ IH]; cbn [mapM].
  - destruct v; try reflexivity; discriminate.
  - destruct v; try reflexivity; cbn [Py.as_str bind]; now rewrite IH.
Qed.

Section Runs.
Context {md : MarkdownStrings} {sympy : Sympy} {objects : Objects}.

(** X12.  [create_md_string] needs ['duration'] and ['components'] in every
    run: with a run where either lookup raises it never returns a text.  It
    raises what the first run raises: [KeyError] for a first run that is a
    dictionary without ['duration']; for one that is not a dictionary,
    [IndexError] when it is an array or a quantity (a str is no index of
    theirs) and [TypeError] otherwise. *)
Theorem create_md_string_missing_keys :
  forall (self : Std_mdexpander) (brian_verbose github_md0 : bool),
    (forall net_dict run_dict e,
       In run_dict net_dict ->
       Py.getitem run_dict "duration" = Raise e \/
       Py.getitem run_dict "components" = Raise e ->
       forall out, fst (create_md_string self net_dict brian_verbose github_md0) <> Ok out) /\
    (forall items rest,
       Py.assoc "duration" items = None ->
       fst (create_md_string self (PDict items :: rest) brian_verbose github_md0) =
         Raise (KeyError "duration")) /\
    (forall run_dict rest,
       Py.is_dict run_dict = false ->
       fst (create_md_string self (run_dict :: rest) brian_verbose github_md0) =
         Raise (if Py.has_size run_dict then IndexError else TypeError)).
Proof.
  intros self bv gm. split; [| split].
  - intros nd rd e Hin Hraise out H. rewrite create_md_string_sections in H.
    apply bind_Ok_inv in H as [sections [Hsections _]].
    destruct (in_combine_seq rd nd Hin 0) as [i Hi].
    destruct (mapM_Ok_In _ _ _ _ Hsections Hi) as [section Hsection].
    cbn [fst snd] in Hsection. unfold run_string in Hsection.
    apply bind_Ok_inv in Hsection as [before [Hbefore _]].
    rewrite run_components_groups in Hbefore.
    apply bind_Ok_inv in Hbefore as [duration [Hduration Hbefore]].
    apply bind_Ok_inv in Hbefore as [components [Hcomponents _]].
    destruct Hraise; congruence.
  - intros items rest Hnone. rewrite create_md_string_sections.
    cbn [length seq combine mapM fst snd]. unfold run_string at 1.
    rewrite run_components_groups. cbn [Py.getitem]. rewrite Hnone. reflexivity.
  - intros rd rest Hrd. rewrite create_md_string_sections.
    cbn [length seq combine mapM fst snd]. unfold run_string at 1.
    rewrite run_components_groups.
    destruct rd; try reflexivity; discriminate.
Qed.

(** X13.  The inactive members close the text of a run: a newline, the bold
    heading 'Inactive member(s):', a newline and the names joined by [', '],
    with no newline after the last name, so that the text of the next run
    follows on the same line.  A member that is not a string raises
    [TypeError]; without the key ['inactive'] nothing is added. *)
Theorem inactive_members_last :
  forall (run_dict inactive : pyval) (items : list pyval),
    Py.getitem run_dict "inactive" = Ok inactive ->
    Py.iter inactive = Ok items ->
    (forall names acc,
       mapM Py.as_str items = Ok names ->
       inactive_section run_dict acc =
         Ok (acc ++ Str.endl ++
             bold (PStr ("Inactive member" ++ plural_s (length items) ++ ":")) ++
             Str.endl ++ Str.join ", " names)) /\
    (forall names self brian_verbose n run_indx section,
       mapM Py.as_str items = Ok names ->
       run_string self brian_verbose n run_indx run_dict = Ok section ->
       exists before, section = before ++ Str.join ", " names) /\
    (forall acc,
       Exists (fun v => Py.isinstance_str v = false) items ->
       inactive_section run_dict acc = Raise TypeError).
Proof.
  intros rd inactive items Hget Hiter.
  assert (Hsection : forall acc,
            inactive_section rd acc =
            (names <- mapM Py.as_str items ;;
             Ok (acc ++ Str.endl ++
                 bold (PStr ("Inactive member" ++ plural_s (length items) ++ ":")) ++
                 Str.endl ++ Str.join ", " names))).
  { intros acc. unfold inactive_section.
    rewrite (getitem_contains _ _ _ Hget). cbn [bind]. cbv zeta.
    rewrite Hget. cbn [bind]. rewrite (check_plural_none _ _ true Hiter). cbn [bind].
    rewrite Hiter. cbn [bind]. apply bind_ext; [reflexivity |]. intros names.
    f_equal. strings. }
  split; [| split].
  - intros names acc Hnames. rewrite Hsection, Hnames. reflexivity.
  - intros names self bv n run_indx section Hnames H. unfold run_string in H.
    apply bind_Ok_inv in H as [before [_ H]].
    apply bind_Ok_inv in H as [has [_ H]].
    apply bind_Ok_inv in H as [sorted [_ H]].
    apply bind_Ok_inv in H as [acc1 [_ H]].
    apply bind_Ok_inv in H as [acc2 [_ H]].
    rewrite Hsection, Hnames in H. cbn [bind] in H. injection H as <-.
    exists (acc2 ++ Str.endl ++
            bold (PStr ("Inactive member" ++ plural_s (length items) ++ ":")) ++
            Str.endl).
    now rewrite !append_assoc.
  - intros acc Hbad. rewrite Hsection, (mapM_as_str_not_str _ Hbad). reflexivity.
Qed.

End Runs.

(** ** Texts that end with a blank line *)

Lemma Ok_inj {A} (a b : A) : Ok a = Ok b -> a = b.
Proof. now intros [= ->]. Qed.

Lemma ends_blank_endll (s : string) : ends_blank (s ++ Str.endll).
Proof. now exists s. Qed.

Lemma ends_blank_app (s t : string) : ends_blank t -> ends_blank (s ++ t).
Proof. intros [b ->]. exists (s ++ b). now rewrite append_assoc. Qed.

Lemma for_acc_ends {A} (g : A -> result string) (xs : list A) :
  (forall x t, g x = Ok t -> ends_blank t) ->
  forall acc out, ends_blank acc -> for_acc g xs acc = Ok out -> ends_blank out.
Proof.
  intros Hg. induction xs as [|x xs IH]; cbn [for_acc]; intros acc out Hacc H.
  - now inversion H; subst.
  - apply bind_Ok_inv in H as [t [Ht H]].
    apply (IH (acc ++ t)); [apply ends_blank_app; eauto | exact H].
Qed.

Lemma for_acc_ends_or_empty {A} (g : A -> result string) (xs : list A) (out : string) :
  (forall x t, g x = Ok t -> ends_blank t) ->
  for_acc g xs "" = Ok out -> out = "" \/ ends_blank out.
Proof.
  intros Hg H. destruct xs as [|x xs]; cbn [for_acc] in H.
  - inversion H. now left.
  - right. apply bind_Ok_inv in H as [t [Ht H]].
    apply (for_acc_ends g xs Hg ("" ++ t) out); [apply ends_blank_app; eauto | exact H].
Qed.

Lemma ends_blank_app_or_empty (s t : string) :
  ends_blank s -> t = "" \/ ends_blank t -> ends_blank (s ++ t).
Proof.
  intros Hs [-> | Ht]; [now rewrite append_nil_r | now apply ends_blank_app].
Qed.

Lemma ends_blank_cons (c : ascii) (s : string) :
  ends_blank s -> ends_blank (String c s).
Proof. intros [b ->]. now exists (String c b). Qed.

Lemma ends_blank_alone : ends_blank Str.endll.
Proof. now exists "". Qed.

Ltac ends_blank_tac :=
  repeat match goal with
         | |- ends_blank Str.endll => apply ends_blank_alone
         | |- ends_blank (_ ++ Str.endll) => apply ends_blank_endll
         | |- ends_blank (_ ++ _) => apply ends_blank_app
         | |- ends_blank (String _ _) => apply ends_blank_cons
         end.

Section BlankLines.
Context {md : MarkdownStrings} {sympy : Sympy} {objects : Objects}.

Lemma expand_identifiers_ends (self : Std_mdexpander) (d : pyval) (out : string) :
  expand_identifiers self d = Ok out -> ends_blank out.
Proof.
  unfold expand_identifiers. intros H.
  apply bind_Ok_inv in H as [kvs [_ H]]. apply bind_Ok_inv in H as [s [_ H]].
  apply Ok_inj in H; rewrite <- H. ends_blank_tac.
Qed.

Lemma expand_equation_ends (self : Std_mdexpander) (k : string) (d : pyval)
    (out : string) :
  expand_equation self k d = Ok out -> ends_blank out.
Proof.
  unfold expand_equation. intros H.
  apply bind_Ok_inv in H as [ty [_ H]]. apply bind_Ok_inv in H as [r1 [_ H]].
  apply bind_Ok_inv in H as [he [_ H]]. apply bind_Ok_inv in H as [r2 [_ H]].
  apply bind_Ok_inv in H as [v [_ H]]. apply bind_Ok_inv in H as [u [_ H]].
  cbv zeta in H.
  apply bind_Ok_inv in H as [hf [_ H]]. apply bind_Ok_inv in H as [r3 [_ H]].
  apply bind_Ok_inv in H as [r4 [_ H]].
  apply Ok_inj in H; rewrite <- H. ends_blank_tac.
Qed.

Lemma expand_event_ends (self : Std_mdexpander) (k : string) (d : pyval)
    (out : string) :
  expand_event self k d = Ok out -> ends_blank out.
Proof.
  unfold expand_event. cbv zeta. intros H.
  apply bind_Ok_inv in H as [th [_ H]]. apply bind_Ok_inv in H as [code [_ H]].
  apply bind_Ok_inv in H as [after [_ H]]. apply bind_Ok_inv in H as [hr [_ H]].
  apply bind_Ok_inv in H as [s1 [_ H]]. apply bind_Ok_inv in H as [hf [_ H]].
  apply bind_Ok_inv in H as [s2 [_ H]].
  apply Ok_inj in H; rewrite <- H. ends_blank_tac.
Qed.

Lemma expand_runregularly_ends (self : Std_mdexpander) (d : pyval) (out : string) :
  expand_runregularly self d = Ok out -> ends_blank out.
Proof.
  unfold expand_runregularly. intros H.
  apply bind_Ok_inv in H as [dt [_ H]]. apply bind_Ok_inv in H as [r [_ H]].
  apply bind_Ok_inv in H as [code [_ H]]. apply bind_Ok_inv in H as [s [_ H]].
  apply Ok_inj in H; rewrite <- H. ends_blank_tac.
Qed.

Lemma constants_block_ends (self : Std_mdexpander) (d : pyval) (acc out : string) :
  ends_blank acc -> constants_block self d acc = Ok out -> ends_blank out.
Proof.
  unfold constants_block. intros Hacc H.
  apply bind_Ok_inv in H as [[|] [_ H]]; [| now inversion H; subst].
  apply bind_Ok_inv in H as [ids [_ H]]. apply bind_Ok_inv in H as [t [Ht H]].
  apply Ok_inj in H; rewrite <- H. ends_blank_tac.
  eapply expand_identifiers_ends; eauto.
Qed.

Lemma run_regularly_block_ends (self : Std_mdexpander) (d : pyval) (acc out : string) :
  ends_blank acc -> run_regularly_block self d acc = Ok out -> ends_blank out.
Proof.
  unfold run_regularly_block. intros Hacc H.
  apply bind_Ok_inv in H as [[|] [_ H]]; [| now inversion H; subst].
  cbv zeta in H.
  apply bind_Ok_inv in H as [rr [_ H]]. apply bind_Ok_inv in H as [items [_ H]].
  eapply (for_acc_ends (expand_runregularly self) items); [| | exact H].
  - intros x t. apply expand_runregularly_ends.
  - ends_blank_tac.
Qed.

Lemma expand_NeuronGroup_ends (self : Std_mdexpander) (d : pyval) (out : string) :
  expand_NeuronGroup self d = Ok out -> ends_blank out.
Proof.
  unfold expand_NeuronGroup. cbv zeta. intros H.
  apply bind_Ok_inv in H as [name [_ H]]. apply bind_Ok_inv in H as [N [_ H]].
  apply bind_Ok_inv in H as [equations [_ H]]. apply bind_Ok_inv in H as [eqs [Heqs H]].
  apply bind_Ok_inv in H as [um [_ H]]. apply bind_Ok_inv in H as [hm [_ H]].
  apply bind_Ok_inv in H as [s1 [H1 H]]. apply bind_Ok_inv in H as [he [_ H]].
  apply bind_Ok_inv in H as [s2 [H2 H]]. apply bind_Ok_inv in H as [hi [_ H]].
  apply bind_Ok_inv in H as [s3 [H3 H]]. apply bind_Ok_inv in H as [hr [_ H]].
  apply bind_Ok_inv in H as [s4 [H4 H]]. inversion H; subst out. clear H.
  assert (Heqs' : eqs = "" \/ ends_blank eqs).
  { unfold expand_equations in Heqs. apply bind_Ok_inv in Heqs as [kvs [_ Heqs]].
    eapply for_acc_ends_or_empty; [| exact Heqs].
    intros kv t. apply expand_equation_ends. }
  assert (E1 : ends_blank s1).
  { destruct hm.
    - apply bind_Ok_inv in H1 as [m [_ H1]]. apply Ok_inj in H1; rewrite <- H1. ends_blank_tac.
    - apply Ok_inj in H1; rewrite <- H1. destruct Heqs' as [-> | Heqs'].
      + rewrite append_nil_r. ends_blank_tac.
      + ends_blank_tac. exact Heqs'. }
  assert (E2 : ends_blank s2).
  { destruct he; [| now inversion H2; subst].
    apply bind_Ok_inv in H2 as [events [_ H2]]. apply bind_Ok_inv in H2 as [evs [Hevs H2]].
    apply Ok_inj in H2; rewrite <- H2.
    assert (Hevs' : evs = "" \/ ends_blank evs).
    { unfold expand_events in Hevs. apply bind_Ok_inv in Hevs as [kvs [_ Hevs]].
      eapply for_acc_ends_or_empty; [| exact Hevs].
      intros kv t. apply expand_event_ends. }
    destruct Hevs' as [-> | Hevs'].
    - rewrite append_nil_r. ends_blank_tac.
    - ends_blank_tac. exact Hevs'. }
  assert (E3 : ends_blank s3).
  { destruct hi; [| now inversion H3; subst].
    apply bind_Ok_inv in H3 as [ids [_ H3]]. apply bind_Ok_inv in H3 as [t [Ht H3]].
    apply Ok_inj in H3; rewrite <- H3. ends_blank_tac.
    eapply expand_identifiers_ends; eauto. }
  destruct hr; [| now inversion H4; subst].
  apply bind_Ok_inv in H4 as [rr [_ H4]]. apply bind_Ok_inv in H4 as [plural [_ H4]].
  apply bind_Ok_inv in H4 as [items [_ H4]].
  eapply (for_acc_ends (expand_runregularly self) items); [| | exact H4].
  - intros x t. apply expand_runregularly_ends.
  - ends_blank_tac.
Qed.

Lemma expand_PoissonGroup_ends (self : Std_mdexpander) (d : pyval) (out : string) :
  expand_PoissonGroup self d = Ok out -> ends_blank out.
Proof.
  unfold expand_PoissonGroup. cbv zeta. intros H.
  apply bind_Ok_inv in H as [name [_ H]]. apply bind_Ok_inv in H as [N [_ H]].
  apply bind_Ok_inv in H as [rates [_ H]]. apply bind_Ok_inv in H as [r [_ H]].
  apply bind_Ok_inv in H as [s1 [H1 H]].
  eapply run_regularly_block_ends; [| exact H].
  eapply constants_block_ends; [| exact H1]. ends_blank_tac.
Qed.

Lemma expand_SpikeGeneratorGroup_ends (self : Std_mdexpander) (d : pyval) (out : string) :
  expand_SpikeGeneratorGroup self d = Ok out -> ends_blank out.
Proof.
  unfold expand_SpikeGeneratorGroup. cbv zeta. intros H.
  apply bind_Ok_inv in H as [name [_ H]]. apply bind_Ok_inv in H as [N [_ H]].
  apply bind_Ok_inv in H as [i1 [_ H]]. apply bind_Ok_inv in H as [plural [_ H]].
  apply bind_Ok_inv in H as [i2 [_ H]]. apply bind_Ok_inv in H as [idx [_ H]].
  apply bind_Ok_inv in H as [t1 [_ H]]. apply bind_Ok_inv in H as [ts [_ H]].
  apply bind_Ok_inv in H as [period [_ H]].
  eapply run_regularly_block_ends; [| exact H]. ends_blank_tac.
Qed.

Lemma expand_PoissonInput_ends (self : Std_mdexpander) (d : pyval) (out : string) :
  expand_PoissonInput self d = Ok out -> ends_blank out.
Proof.
  unfold expand_PoissonInput. cbv zeta. intros H.
  apply bind_Ok_inv in H as [N [_ H]]. apply bind_Ok_inv in H as [tv [_ H]].
  apply bind_Ok_inv in H as [r1 [_ H]]. apply bind_Ok_inv in H as [rate [_ H]].
  apply bind_Ok_inv in H as [r2 [_ H]]. apply bind_Ok_inv in H as [w [_ H]].
  apply bind_Ok_inv in H as [r3 [_ H]].
  eapply constants_block_ends; [| exact H]. ends_blank_tac.
Qed.

Lemma expand_EventMonitor_ends (self : Std_mdexpander) (d : pyval) (out : string) :
  expand_EventMonitor self d = Ok out -> ends_blank out.
Proof.
  unfold expand_EventMonitor. intros H.
  apply bind_Ok_inv in H as [head [_ H]]. apply bind_Ok_inv in H as [record [_ H]].
  apply bind_Ok_inv in H as [s [_ H]]. apply bind_Ok_inv in H as [event [_ H]].
  apply Ok_inj in H; rewrite <- H. ends_blank_tac.
Qed.

Lemma expand_PopulationRateMonitor_ends (self : Std_mdexpander) (d : pyval)
    (out : string) :
  expand_PopulationRateMonitor self d = Ok out -> ends_blank out.
Proof.
  unfold expand_PopulationRateMonitor. intros H.
  apply bind_Ok_inv in H as [s [_ H]]. apply bind_Ok_inv in H as [s' [_ H]].
  apply Ok_inj in H; rewrite <- H. ends_blank_tac.
Qed.

Lemma expand_initializer_ends (self : Std_mdexpander) (d : pyval) (out : string) :
  expand_initializer self d = Ok out -> ends_blank out.
Proof.
  unfold expand_initializer. cbv zeta. intros H.
  apply bind_Ok_inv in H as [v [_ H]]. apply bind_Ok_inv in H as [r1 [_ H]].
  apply bind_Ok_inv in H as [s [_ H]]. apply bind_Ok_inv in H as [s' [_ H]].
  apply bind_Ok_inv in H as [val [_ H]]. apply bind_Ok_inv in H as [r2 [_ H]].
  apply bind_Ok_inv in H as [index [_ H]]. apply bind_Ok_inv in H as [s1 [_ H]].
  apply bind_Ok_inv in H as [hi [_ H]]. apply bind_Ok_inv in H as [s2 [_ H]].
  apply Ok_inj in H; rewrite <- H. ends_blank_tac.
Qed.

Lemma expand_connector_ends (self : Std_mdexpander) (d : pyval) (out : string) :
  expand_connector self d = Ok out -> ends_blank out.
Proof.
  unfold expand_connector. cbv zeta. intros H.
  apply bind_Ok_inv in H as [s [_ H]]. apply bind_Ok_inv in H as [s' [_ H]].
  apply bind_Ok_inv in H as [t [_ H]]. apply bind_Ok_inv in H as [t' [_ H]].
  apply bind_Ok_inv in H as [hi [_ H]]. apply bind_Ok_inv in H as [c1 [_ H]].
  apply bind_Ok_inv in H as [p [_ H]]. apply bind_Ok_inv in H as [wp [_ H]].
  apply bind_Ok_inv in H as [c2 [_ H]]. apply bind_Ok_inv in H as [n [_ H]].
  apply bind_Ok_inv in H as [wn [_ H]]. apply bind_Ok_inv in H as [c3 [_ H]].
  apply bind_Ok_inv in H as [hid [_ H]]. apply bind_Ok_inv in H as [c4 [_ H]].
  apply Ok_inj in H; rewrite <- H. ends_blank_tac.
Qed.

(** X14.  The texts of the group expanders, of the event and rate monitors,
    of an initializer and of a connector end with a blank line, whatever the
    optional keys: the next bullet of the list starts on a line of its own. *)
Theorem bullets_end_with_blank_line :
  forall (self : Std_mdexpander) (d : pyval) (out : string),
    (expand_NeuronGroup self d = Ok out -> ends_blank out) /\
    (expand_PoissonGroup self d = Ok out -> ends_blank out) /\
    (expand_SpikeGeneratorGroup self d = Ok out -> ends_blank out) /\
    (expand_PoissonInput self d = Ok out -> ends_blank out) /\
    (expand_EventMonitor self d = Ok out -> ends_blank out) /\
    (expand_SpikeMonitor self d = Ok out -> ends_blank out) /\
    (expand_PopulationRateMonitor self d = Ok out -> ends_blank out) /\
    (expand_initializer self d = Ok out -> ends_blank out) /\
    (expand_connector self d = Ok out -> ends_blank out).
Proof.
  intros self d out. repeat split.
  - apply expand_NeuronGroup_ends.
  - apply expand_PoissonGroup_ends.
  - apply expand_SpikeGeneratorGroup_ends.
  - apply expand_PoissonInput_ends.
  - apply expand_EventMonitor_ends.
  - apply expand_EventMonitor_ends.
  - apply expand_PopulationRateMonitor_ends.
  - apply expand_initializer_ends.
  - apply expand_connector_ends.
Qed.

(** X15.  Under one of the nine keys a value that has no [__iter__] (a
    number, [None]) raises [TypeError]: the heading takes it for a single
    member, the loop over the members cannot go through it. *)
Theorem expand_component_not_a_list :
  forall (self : Std_mdexpander) (brian_verbose : bool) (k : string) (obj_list : pyval),
    In k nine_keys ->
    Py.hasattr obj_list "__iter__" = false ->
    expand_component self brian_verbose (k, obj_list) = Raise TypeError.
Proof.
  intros self bv k v Hk Hv.
  rewrite nine_keys_func_map in Hk. apply assoc_keys in Hk as [entry Hentry].
  unfold expand_component. cbn [fst snd]. rewrite Hentry. cbv zeta.
  unfold check_plural. rewrite Hv. cbn [negb bind].
  destruct v; try discriminate; reflexivity.
Qed.

(** X16.  Both monitor expanders ask a ['record'] that is not a boolean for
    its [size]: a record given as a list or as a number, which has none,
    raises [AttributeError]. *)
Theorem monitor_record_without_size :
  forall (self : Std_mdexpander) (mon : pyval) (head : string) (record : pyval),
    monitored_variables self mon = Ok head ->
    Py.getitem mon "record" = Ok record ->
    Py.isinstance_bool record = false ->
    Py.hasattr record "size" = false ->
    expand_StateMonitor self mon = Raise (AttributeError "size") /\
    expand_EventMonitor self mon = Raise (AttributeError "size").
Proof.
  intros self mon head record Hhead Hrecord Hbool Hsize.
  rewrite (expand_StateMonitor_record self mon head record Hhead Hrecord).
  rewrite (expand_EventMonitor_record self mon head record Hhead Hrecord).
  destruct record; try discriminate; split; reflexivity.
Qed.

End BlankLines.

(** * The properties on examples *)

Import Demo.

Lemma check_plural_raises_witness :
  check_plural (PList [PInt 0; PInt 1]) (Some "word") true = Raise Exception /\
  check_plural (PInt 5) None false = Raise IndexError.
Proof.
  split.
  - apply (check_plural_raises (PList [PInt 0; PInt 1]) (Some "word") true Exception).
    right; right. split; [reflexivity |].
    exists [PInt 0; PInt 1], "word".
    repeat split; try reflexivity; try discriminate.
  - apply (check_plural_raises (PInt 5) None false IndexError).
    left. repeat split.
Defined.

Lemma prepare_math_statements_pieces_witness :
  Str.split_lines ("v = 0" ++ String "010" "w += 1;u -= 2") =
    ["v = 0"; "w += 1"; "u -= 2"] /\
  prepare_math_statements plain (PStr ("v = 0" ++ String "010" "w += 1;u -= 2"))
      false true default_equals =
    Ok "$v $&#8592;$ 0$, $w $+=$ 1$, $u $-=$ 2$" /\
  assignment_text plain default_equals "w += 1" = Ok "$w $+=$ 1$".
Proof.
  destruct (prepare_math_statements_pieces (sympy := sympy) (objects := objects)
              plain ("v = 0" ++ String "010" "w += 1;u -= 2") false default_equals)
    as [[Hcut [Hone _]] [_ [Hsep [Hpiece _]]]].
  split; [| split].
  - rewrite (proj2 (Hcut "v = 0" "w += 1;u -= 2" eq_refl)).
    change "w += 1;u -= 2" with ("w += 1" ++ String ";" "u -= 2").
    rewrite (proj1 (Hcut "w += 1" "u -= 2" eq_refl)).
    rewrite (Hone "u -= 2" eq_refl). reflexivity.
  - apply Hsep. repeat constructor; eexists; eexists; reflexivity.
  - exact (Hpiece "w += 1" "w " " 1" eq_refl).
Defined.

Lemma monitor_member_clause_witness :
  (expand_StateMonitor plain (monitor (PBool false)) = Ok monitor_head /\
   expand_EventMonitor plain (monitor (PBool false)) =
     Ok (monitor_head ++ " when event **spike** is triggered." ++ Str.endll)) /\
  (expand_StateMonitor plain (monitor (PBool true)) =
     Ok (monitor_head ++ " for all members") /\
   expand_EventMonitor plain (monitor (PBool true)) =
     Ok (monitor_head ++ " for all members" ++
         " when event **spike** is triggered." ++ Str.endll)) /\
  (expand_StateMonitor plain (monitor (PArray [])) =
     Ok (monitor_head ++ " for no member") /\
   expand_EventMonitor plain (monitor (PArray [])) =
     Ok (monitor_head ++ " for no member" ++
         " when event **spike** is triggered." ++ Str.endll)).
Proof.
  split; [| split].
  - destruct (monitor_member_clause (md := markdown) (sympy := sympy)
                (objects := objects) plain (monitor (PBool false)) monitor_head
                (PBool false) eq_refl eq_refl) as [Hfalse _].
    exact (Hfalse eq_refl).
  - destruct (monitor_member_clause (md := markdown) (sympy := sympy)
                (objects := objects) plain (monitor (PBool true)) monitor_head
                (PBool true) eq_refl eq_refl) as [_ [Htrue _]].
    exact (Htrue eq_refl).
  - destruct (monitor_member_clause (md := markdown) (sympy := sympy)
                (objects := objects) plain (monitor (PArray [])) monitor_head
                (PArray []) eq_refl eq_refl) as [_ [_ [Hempty _]]].
    exact (Hempty eq_refl eq_refl).
Defined.



Lemma initializer_and_connector_sections_witness :
  run_string plain false 1 0 (bare_run []) = Ok bare_section /\
  run_string plain false 1 0 (run "10. ms") =
    (before <- run_components plain false 1 0 (run "10. ms") ;;
     inits <- mapM (expand_initializer plain) [initializer] ;;
     conns <- mapM (expand_connector plain) [connector] ;;
     Ok (before ++
         initializer_text false (map (fun expansion => "- " ++ expansion) inits) ++
         connector_text (map (fun expansion => "- " ++ expansion) conns))).
Proof.
  split.
  - destruct (initializer_and_connector_sections (md := markdown) (sympy := sympy)
                (objects := objects) plain false 1 0 (bare_run [])) as [Habsent _].
    exact (Habsent eq_refl).
  - destruct (initializer_and_connector_sections (md := markdown) (sympy := sympy)
                (objects := objects) plain false 1 0 (run "10. ms"))
      as [_ [Hpresent _]].
    exact (Hpresent (PList [connector; initializer]) [connector; initializer]
             eq_refl eq_refl).
Defined.

(** C7, where the code leaves the claim: the sorting loop asks whether the
    ['type'] of an entry is the constant ['initializer'] itself ([is]), not
    whether it is equal to it.  An initializer whose ['type'] is an equal str
    that is another object is put with the connectors and expanded by
    [expand_connector], which finds no ['target'] in it; with the constant
    itself the same entry is written in the initializer section. *)
Theorem initializer_type_compared_by_identity :
  Py.getitem (initializer_typed (PStrCopy "initializer")) "type" =
    Ok (PStrCopy "initializer") /\
  Py.eq_str (PStrCopy "initializer") "initializer" = Ok true /\
  is_literal (PStrCopy "initializer") "initializer" = false /\
  sort_initializers_connectors [initializer_typed (PStrCopy "initializer")] [] [] =
    Ok ([], [initializer_typed (PStrCopy "initializer")]) /\
  sort_initializers_connectors [initializer_typed (PStr "initializer")] [] [] =
    Ok ([initializer_typed (PStr "initializer")], []) /\
  run_string plain false 1 0 (run_of [initializer_typed (PStr "initializer")]) =
    Ok (bare_section ++
        "**Initializing values at " ++ Str.spaces 40 ++ "starting:**" ++ Str.endl ++
        "- Variable $v$ of grp initialized with $0$ to all members" ++ Str.endll) /\
  run_string plain false 1 0 (run_of [initializer_typed (PStrCopy "initializer")]) =
    Raise (KeyError "target") /\
  fst (create_md_string fresh [run_of [initializer_typed (PStrCopy "initializer")]]
         false false) = Raise (KeyError "target").
Proof. repeat split. Qed.

Lemma not_a_component_key : ~ In "network" nine_keys.
Proof.
  unfold nine_keys. simpl. intros H.
  repeat (destruct H as [H|H]; [discriminate |]). exact H.
Defined.

Lemma component_groups_witness :
  expand_component plain true ("synapses", PList [synapse; synapse]) =
    Ok ("**Synapses defined:**" ++ Str.endl ++
        ("- " ++ Str.tab ++ "From grp to grp" ++ Str.endll) ++
        ("- " ++ Str.tab ++ "From grp to grp" ++ Str.endll) ++ Str.endl) /\
  expand_component plain true ("network", PInt 3) = Ok Str.endl.
Proof.
  destruct (component_groups (md := markdown) (sympy := sympy) (objects := objects) plain true) as [_ [_ [Hknown [Hother _]]]].
  split.
  - exact (Hknown "synapses"
             {| entry_f := expand_Synapses; entry_hb := "Synapse"; entry_h := "Synapse" |}
             [synapse; synapse] eq_refl).
  - exact (Hother "network" (PInt 3) not_a_component_key).
Defined.

(** C2, the claim as stated fails: a component key outside the nine is not
    without effect, the text of the run gets one more newline; and with
    [brian_verbose] the heading of a synapse is 'Synapse', not the name of the
    Brian class [Synapses]. *)
Lemma unknown_component_key_counterexample :
  ~ In "network" nine_keys /\
  fst (create_md_string fresh [bare_run [("network", PList [])]] false false) <>
  fst (create_md_string fresh [bare_run []] false false) /\
  expand_component plain true ("synapses", PList [synapse]) =
    Ok ("**Synapse defined:**" ++ Str.endl ++
        "- " ++ Str.tab ++ "From grp to grp" ++ Str.endll ++ Str.endl).
Proof.
  split; [exact not_a_component_key |]. split; [| reflexivity].
  vm_compute. discriminate.
Qed.

Lemma create_md_string_runs_witness :
  exists duration rest,
    Py.getitem (bare_run []) "duration" = Ok duration /\
    second_bare_section =
      ((if 1 <? 2 then header ("Run " ++ Str.of_Z (Z.of_nat 1 + 1) ++ " details") 3 ++
                       Str.endl
        else Str.endl) ++
       "Duration of simulation is " ++ bold (PStr (Py.str duration)) ++ Str.endll) ++ rest.
Proof.
  destruct (create_md_string_runs (md := markdown) (sympy := sympy) (objects := objects) 
              fresh [bare_run []; bare_run []] false false)
    as [_ [_ Hrun]].
  exact (Hrun plain 2 1%nat (bare_run []) second_bare_section eq_refl).
Defined.

Lemma split_assign_parts_count_witness :
  prepare_math_statements plain (PStr "v == 1;w = 2") false true default_equals =
    Raise ValueError.
Proof.
  destruct (split_assign_parts_count (sympy := sympy) (objects := objects)
              plain false default_equals "v == 1") as [_ [_ Hmany]].
  destruct (Hmany (le_n 2)) as [_ Htext].
  exact (Htext "v == 1;w = 2" ["w = 2"] eq_refl).
Defined.

Lemma split_assign_round_trip_witness :
  "w += 1" = "w " ++ "+=" ++ " 1" /\
  assignment_operator default_equals "v = 0" = default_equals.
Proof.
  split.
  - exact (proj1 (split_assign_round_trip "w += 1" "w " " 1" eq_refl)).
  - destruct (split_assign_round_trip "v = 0" "v " " 0" eq_refl) as [_ [_ [_ Hop]]].
    exact (Hop default_equals).
Defined.

Lemma statements_without_assignment_witness :
  prepare_math_statements fresh (PStr ("v;w" ++ String "010" "x")) false true
      default_equals = Ok ", , ".
Proof.
  exact (statements_without_assignment (sympy := sympy) (objects := objects)
           fresh ("v;w" ++ String "010" "x") false default_equals eq_refl).
Defined.

Lemma expand_identifiers_joined_witness :
  expand_identifiers plain (PList []) = Raise (AttributeError "items").
Proof.
  destruct (expand_identifiers_joined (sympy := sympy) (objects := objects) plain)
    as [_ [_ Hother]].
  exact (Hother (PList []) eq_refl).
Defined.

Lemma expand_initializer_condition_witness :
  expand_initializer plain (initializer_at (PStr "False")) =
    Ok ("Variable $v$ of grp initialized with $0$ to all members" ++ Str.endll) /\
  expand_initializer plain (initializer_at (PStr "i > 2")) =
    Ok ("Variable $v$ of grp initialized with $0$ on condition i > 2" ++ Str.endll).
Proof.
  split.
  - destruct (expand_initializer_condition (sympy := sympy) (objects := objects)
                plain (initializer_at (PStr "False")) (PStr "False") eq_refl
                (or_introl eq_refl)) as [H _].
    exact H.
  - destruct (expand_initializer_condition (sympy := sympy) (objects := objects)
                plain (initializer_at (PStr "i > 2")) (PStr "i > 2") eq_refl
                (or_introl eq_refl)) as [H _].
    exact H.
Defined.

Lemma agree_but_at (key : string) (items : list (string * pyval)) (v : pyval) :
  forall k, k <> key -> Py.assoc k items = Py.assoc k (items ++ [(key, v)]).
Proof.
  intros k Hk. induction items as [|[k' v'] items IH]; cbn [app Py.assoc].
  - apply String.eqb_neq in Hk. now rewrite Hk.
  - destruct (String.eqb k k'); [reflexivity | exact IH].
Defined.

Lemma expand_connector_ignores_condition_witness :
  expand_connector plain (PDict connector_items) =
  expand_connector plain (PDict (connector_items ++ [("condition", PStr "i != j")])).
Proof.
  apply (expand_connector_ignores_condition (sympy := sympy) (objects := objects)).
  - exact (agree_but_at "condition" connector_items (PStr "i != j")).
  - left. discriminate.
Defined.

Lemma expand_Synapses_ignores_method_witness :
  expand_Synapses plain (PDict synapse_items) =
  expand_Synapses plain (PDict (synapse_items ++ [("user_method", PStr "euler")])).
Proof.
  apply (expand_Synapses_ignores_method (md := markdown) (sympy := sympy)
           (objects := objects)).
  - exact (agree_but_at "user_method" synapse_items (PStr "euler")).
  - reflexivity.
Defined.

Lemma expand_SpikeGeneratorGroup_period_witness :
  expand_SpikeGeneratorGroup plain (PDict spikegenerator_items) =
    Raise (KeyError "period").
Proof.
  exact (expand_SpikeGeneratorGroup_period (md := markdown) (sympy := sympy)
           (objects := objects) plain spikegenerator_items
           (PStr "gen") (PInt 1) (PArray [PInt 0]) (PList [PQuantity "10. ms"])
           [PInt 0] [PQuantity "10. ms"]
           eq_refl eq_refl eq_refl eq_refl eq_refl eq_refl eq_refl).
Defined.

Lemma render_needs_github_md_witness :
  render_expression fresh (PQuantity "10. ms") false =
    Raise (AttributeError "github_md").
Proof.
  destruct (render_needs_github_md (md := markdown) (sympy := sympy)
              (objects := objects) fresh eq_refl)
    as [_ [_ [_ [_ [_ [_ [_ [_ [_ Hquantity]]]]]]]]].
  exact (Hquantity (PQuantity "10. ms") eq_refl).
Defined.

Lemma render_expression_dollars_witness :
  render_expression plain (PStr "v") false = Ok "$v$".
Proof.
  destruct (render_expression_dollars (sympy := sympy) (objects := objects)
              plain (PStr "v") "v" "v" eq_refl eq_refl eq_refl eq_refl eq_refl)
    as [Hplain _].
  exact (Hplain eq_refl).
Defined.


Lemma create_md_string_missing_keys_witness :
  fst (create_md_string fresh [PDict [("components", PDict [])]; bare_run []] false false) =
    Raise (KeyError "duration") /\
  fst (create_md_string fresh [PList []] false false) = Raise TypeError /\
  fst (create_md_string fresh [PArray [PInt 1; PInt 2]] false false) = Raise IndexError.
Proof.
  destruct (create_md_string_missing_keys (md := markdown) (sympy := sympy)
              (objects := objects) fresh false false) as [_ [Hkey Htype]].
  split; [| split].
  - exact (Hkey [("components", PDict [])] [bare_run []] eq_refl).
  - exact (Htype (PList []) [] eq_refl).
  - exact (Htype (PArray [PInt 1; PInt 2]) [] eq_refl).
Defined.

Lemma inactive_members_last_witness :
  inactive_section run_with_inactive "" =
    Ok (Str.endl ++ "**Inactive members:**" ++ Str.endl ++ "grp, mon").
Proof.
  destruct (inactive_members_last (md := markdown) (sympy := sympy) (objects := objects)
              run_with_inactive (PList [PStr "grp"; PStr "mon"])
              [PStr "grp"; PStr "mon"] eq_refl eq_refl) as [Hnames _].
  exact (Hnames ["grp"; "mon"] "" eq_refl).
Defined.

Lemma bullets_end_with_blank_line_witness :
  ends_blank ("Variable $v$ of grp initialized with $0$ to members <object>" ++ Str.endll).
Proof.
  destruct (bullets_end_with_blank_line (md := markdown) (sympy := sympy)
              (objects := objects) plain initializer
              ("Variable $v$ of grp initialized with $0$ to members <object>" ++ Str.endll))
    as [_ [_ [_ [_ [_ [_ [_ [Hinitializer _]]]]]]]].
  exact (Hinitializer eq_refl).
Defined.

Lemma expand_component_not_a_list_witness :
  expand_component plain false ("neurongroup", PInt 3) = Raise TypeError.
Proof.
  exact (expand_component_not_a_list (md := markdown) (sympy := sympy)
           (objects := objects) plain false "neurongroup" (PInt 3)
           (or_introl eq_refl) eq_refl).
Defined.

Lemma monitor_record_without_size_witness :
  expand_StateMonitor plain (monitor (PList [PInt 0])) = Raise (AttributeError "size") /\
  expand_EventMonitor plain (monitor (PList [PInt 0])) = Raise (AttributeError "size").
Proof.
  exact (monitor_record_without_size (md := markdown) (sympy := sympy)
           (objects := objects) plain (monitor (PList [PInt 0])) monitor_head
           (PList [PInt 0]) eq_refl eq_refl eq_refl eq_refl).
Defined.
